(** * pulp_file: the sync and publish tasks of [pulp_file/app/tasks.py]

    A shallow embedding of the file plugin's tasks: the natural key, the
    [Synchronizer] with its two passes over the remote manifest, and the
    [sync] and [publish] tasks over the tables they read and write.

    Sets are stdpp's [gset], tables are [gmap]s keyed by primary key,
    generators are the lists of what they yield, and a Python exception is
    the [Raise] branch of [Result]. *)

From Stdlib Require Import ZArith Lia Ascii String.
From stdpp Require Import gmap strings list fin_maps.

Local Open Scope string_scope.
Local Open Scope Z_scope.

(** ** Exceptions and results *)

Inductive Exception :=
  | ValueError (msg : string)
  | AttributeError (msg : string)
  | DoesNotExist (model : string)
  | OtherError (msg : string).

Inductive Result (A : Type) :=
  | Ok (a : A)
  | Raise (e : Exception).
Arguments Ok {A} a.
Arguments Raise {A} e.

Definition bindR {A B} (r : Result A) (k : A → Result B) : Result B :=
  match r with
  | Ok a => k a
  | Raise e => Raise e
  end.

Declare Scope result_scope.
Delimit Scope result_scope with result.
Notation "x ←ᵣ r ; k" := (bindR r (λ x, k))
  (at level 100, r at next level, right associativity) : result_scope.
Local Open Scope result_scope.

(** ** Data model *)

(** Primary keys of database rows. *)
Abbreviation Pk := positive.

(** [Key = namedtuple('Key', ('path', 'digest'))]: the natural key. *)
Record Key := mkKey { key_path : string; key_digest : string }.

Global Instance Key_eq_dec : EqDecision Key.
Proof. solve_decision. Defined.

Global Instance Key_countable : Countable Key.
Proof.
  refine (inj_countable' (λ k, (key_path k, key_digest k))
                         (λ p, mkKey p.1 p.2) _).
  by intros [].
Defined.

(** [pulp_file.manifest.Entry]: one line of the remote manifest. *)
Record Entry := mkEntry {
  entry_path : string;
  entry_digest : string;
  entry_size : Z
}.

(** Modelled from the spec: [pulp_file.manifest.Manifest] is not part of the
    sources at hand.  The spec makes [read] a restartable sequence of entries
    in file order, so a manifest is its path together with the entries that
    every call of [read()] yields.  A file that does not parse, on which
    [read()] would raise, has no counterpart: what follows is about
    manifests that read as a sequence of entries. *)
Record Manifest := mkManifest {
  manifest_path : string;
  read : list Entry
}.

(** A content unit of a repository version, as [c.cast()] shows it. *)
Record Content := mkContent {
  content_id : Pk;
  content_path : string;
  content_digest : string
}.

(** A new, unsaved [FileContent(path=..., digest=...)]. *)
Record FileContent := mkFileContent {
  file_path : string;
  file_digest : string
}.

(** [models.Artifact(size=..., sha256=...)]. *)
Record Artifact := mkArtifact {
  artifact_size : Z;
  artifact_sha256 : string
}.

(** [PendingArtifact(model, url, relative_path)]. *)
Record PendingArtifact := mkPendingArtifact {
  pa_model : Artifact;
  pa_url : string;
  pa_relative_path : string
}.

(** [PendingContent(model, artifacts={...})]; the set literal of the source
    always holds one element and is kept as a list. *)
Record PendingContent := mkPendingContent {
  pc_model : FileContent;
  pc_artifacts : list PendingArtifact
}.

(** [SizedIterable(iterable, length)]: the declared length is whatever the
    caller passes, not a measurement of the iterable. *)
Record SizedIterable (A : Type) := mkSizedIterable {
  iterable : list A;
  declared_length : nat
}.
Arguments mkSizedIterable {A} _ _.
Arguments iterable {A} _.
Arguments declared_length {A} _.

(** [urllib.parse.ParseResult]. *)
Record ParseResult := mkParseResult {
  scheme : string;
  netloc : string;
  path : string;
  params : string;
  query : string;
  fragment : string
}.

(** [parsed_url._replace(path=p)]. *)
Definition _replace_path (u : ParseResult) (p : string) : ParseResult :=
  {| scheme := scheme u; netloc := netloc u; path := p;
     params := params u; query := query u; fragment := fragment u |}.

(** [FileImporter] rows; [feed_url] may be NULL. *)
Record FileImporter := mkFileImporter {
  importer_name : string;
  feed_url : option string;
  importer_repository : Pk
}.

(** [ChangeSet(importer, new_version, additions=..., removals=...)]. *)
Record ChangeSet := mkChangeSet {
  cs_importer : FileImporter;
  cs_new_version : Pk;
  additions : SizedIterable PendingContent;
  removals : SizedIterable Pk
}.

(** Rows of the tables the two tasks touch. *)
Record Repository := mkRepository {
  repository_name : string;
  last_version : Z
}.

Record RepositoryVersion := mkRepositoryVersion {
  version_repository : Pk;
  number : Z;
  complete : bool
}.

Record FilePublisher := mkFilePublisher {
  publisher_name : string
}.

Record Publication := mkPublication {
  publication_publisher : Pk;
  publication_repository_version : Pk
}.

(** The object a [CreatedResource] tracks (a generic foreign key). *)
Inductive ContentObject :=
  | VersionObject (pk : Pk)
  | PublicationObject (pk : Pk).

Record CreatedResource := mkCreatedResource {
  content_object : ContentObject
}.

(** A [ContentArtifact]; [ca_artifact] is [None] while the file has not been
    downloaded. *)
Record ContentArtifact := mkContentArtifact {
  ca_id : Pk;
  ca_relative_path : string;
  ca_artifact : option Artifact
}.

Record PublishedArtifact := mkPublishedArtifact {
  published_relative_path : string;
  published_publication : Pk;
  published_content_artifact : Pk
}.

Record PublishedMetadata := mkPublishedMetadata {
  metadata_relative_path : string;
  metadata_publication : Pk;
  metadata_file : string
}.

(** ** [os.path] on POSIX paths *)

Definition is_sep (c : ascii) : bool := Ascii.eqb c "/"%char.

Fixpoint has_sep (p : string) : bool :=
  match p with
  | EmptyString => false
  | String c r => is_sep c || has_sep r
  end.

(** [p[:p.rfind('/') + 1]]: everything up to and including the last slash. *)
Fixpoint upto_last_sep (p : string) : string :=
  match p with
  | EmptyString => EmptyString
  | String c r =>
      if has_sep r then String c (upto_last_sep r)
      else if is_sep c then String c EmptyString
      else EmptyString
  end.

(** [p[p.rfind('/') + 1:]]: everything after the last slash. *)
Fixpoint after_last_sep (p : string) : string :=
  match p with
  | EmptyString => EmptyString
  | String c r =>
      if has_sep r then after_last_sep r
      else if is_sep c then r
      else String c r
  end.

(** [head == '/' * len(head)]. *)
Fixpoint all_sep (p : string) : bool :=
  match p with
  | EmptyString => true
  | String c r => is_sep c && all_sep r
  end.

(** [head.rstrip('/')]. *)
Fixpoint rstrip_sep (p : string) : string :=
  match p with
  | EmptyString => EmptyString
  | String c r =>
      match rstrip_sep r with
      | EmptyString => if is_sep c then EmptyString else String c EmptyString
      | r' => String c r'
      end
  end.

(** [os.path.dirname]. *)
Definition dirname (p : string) : string :=
  let head := upto_last_sep p in
  if negb (String.eqb head "") && negb (all_sep head)
  then rstrip_sep head
  else head.

(** [os.path.basename]. *)
Definition basename (p : string) : string := after_last_sep p.

Definition startswith_sep (p : string) : bool :=
  match p with
  | String c _ => is_sep c
  | EmptyString => false
  end.

Fixpoint endswith_sep (p : string) : bool :=
  match p with
  | EmptyString => false
  | String c EmptyString => is_sep c
  | String _ r => endswith_sep r
  end.

(** [os.path.join(a, b)] with two arguments. *)
Definition join (a b : string) : string :=
  if startswith_sep b then b
  else if String.eqb a "" || endswith_sep a then a ++ b
  else a ++ "/" ++ b.

(** ** External collaborators

    What the tasks call but do not define: the downloader, the file system
    behind [Manifest], [urllib.parse], the content listing of a repository
    version, the change set engine and the stores read by [publish].  They
    are taken as they come; nothing is assumed about them. *)
Record Collaborators := mkCollaborators {
  (** [importer.get_downloader(url).fetch()]: the path of the downloaded
      file, or the exception the download raised. *)
  downloader_fetch : FileImporter → option string → Result string;
  (** The entries of the manifest file at a path. *)
  manifest_at : string → list Entry;
  urlparse : option string → ParseResult;
  urlunparse : ParseResult → string;
  (** [version.content()], each unit cast to its [FileContent]. *)
  content : Pk → list Content;
  (** [ChangeSet.apply_and_drain()]. *)
  apply_and_drain : ChangeSet → Result unit;
  (** [content.contentartifact_set.all()]. *)
  contentartifact_set : Content → list ContentArtifact;
  (** [RemoteArtifact.objects.get(content_artifact=..., importer__repository=...)]. *)
  remote_artifact_get : Pk → Pk → Result Artifact;
  (** [Manifest(path).write(entries)]. *)
  manifest_write : string → list Entry → Result unit;
  (** [File(open(path, 'rb'))]. *)
  open_file : string → Result string
}.

(** ** [pulpcore]'s [BatchIterator]

    [BatchIterator(iterable, batch=1000)] yields successive tuples of up to
    [batch] items and stops at the first empty one. *)
Fixpoint batches {A} (batch : nat) (fuel : nat) (l : list A)
    : list (list A) :=
  match fuel with
  | O => []
  | S fuel' =>
      match take batch l with
      | [] => []
      | items => items :: batches batch fuel' (drop batch l)
      end
  end.

(** Every round takes at least one item, so [length l] rounds and the final
    empty one suffice. *)
Definition BatchIterator {A} (l : list A) : list (list A) :=
  batches 1000 (S (length l)) l.

(** ** Django's [Q] objects over content rows *)

Inductive Q :=
  | Q_empty
  | Q_cond (p : Content → bool).

(** [Q(filecontent__path=path, filecontent__digest=digest)]. *)
Definition Q_natural_key (k : Key) : Content → bool :=
  λ c, bool_decide (content_path c = key_path k)
       && bool_decide (content_digest c = key_digest k).

(** [q |= Q(...)]: the empty [Q] is the unit of [|]. *)
Definition Q_or (q : Q) (p : Content → bool) : Q :=
  match q with
  | Q_empty => Q_cond p
  | Q_cond p0 => Q_cond (λ c, p0 c || p c)
  end.

(** [q_set.filter(q)]: an empty [Q] filters nothing out. *)
Definition Q_filter (q : Q) (rows : list Content) : list Content :=
  match q with
  | Q_empty => rows
  | Q_cond p => filter (λ c, p c = true) rows
  end.

(** ** The synchronizer *)

Definition Key_of_entry (e : Entry) : Key :=
  mkKey (entry_path e) (entry_digest e).

Definition Key_of_content (c : Content) : Key :=
  mkKey (content_path c) (content_digest c).

Record Synchronizer := mkSynchronizer {
  _importer : FileImporter;
  _new_version : Pk;
  _old_version : option Pk;
  _manifest : option Manifest;
  _inventory_keys : gset Key;
  _keys_to_add : gset Key;
  _keys_to_remove : gset Key
}.

(** [Synchronizer.__init__]. *)
Definition Synchronizer_init (importer : FileImporter) (new_version : Pk)
    (old_version : option Pk) : Synchronizer :=
  {| _importer := importer;
     _new_version := new_version;
     _old_version := old_version;
     _manifest := None;
     _inventory_keys := ∅;
     _keys_to_add := ∅;
     _keys_to_remove := ∅ |}.

Fixpoint concat_mapR {A B} (f : A → Result (list B)) (l : list A)
    : Result (list B) :=
  match l with
  | [] => Ok []
  | x :: l' =>
      ys ←ᵣ f x;
      zs ←ᵣ concat_mapR f l';
      Ok (ys ++ zs)%list
  end.

Section Synchronizer.
Variable env : Collaborators.

(** [_fetch_manifest]. *)
Definition _fetch_manifest (self : Synchronizer) : Result Synchronizer :=
  downloader_path ←ᵣ
    downloader_fetch env (_importer self) (feed_url (_importer self));
  Ok {| _importer := _importer self;
        _new_version := _new_version self;
        _old_version := _old_version self;
        _manifest :=
          Some (mkManifest downloader_path (manifest_at env downloader_path));
        _inventory_keys := _inventory_keys self;
        _keys_to_add := _keys_to_add self;
        _keys_to_remove := _keys_to_remove self |}.

(** [_fetch_inventory]: nothing to do without a pre-existing version. *)
Definition _fetch_inventory (self : Synchronizer) : Synchronizer :=
  match _old_version self with
  | None => self
  | Some old_version =>
      {| _importer := _importer self;
         _new_version := _new_version self;
         _old_version := _old_version self;
         _manifest := _manifest self;
         _inventory_keys :=
           foldl (λ keys c, keys ∪ {[ Key_of_content c ]})
                 (_inventory_keys self) (content env old_version);
         _keys_to_add := _keys_to_add self;
         _keys_to_remove := _keys_to_remove self |}
  end.

(** [_find_delta(mirror)]; [self._manifest.read()] fails on [None]. *)
Definition _find_delta (mirror : bool) (self : Synchronizer)
    : Result Synchronizer :=
  match _manifest self with
  | None => Raise (AttributeError "read")
  | Some manifest =>
      let remote_keys : gset Key :=
        list_to_set (Key_of_entry <$> read manifest) in
      Ok {| _importer := _importer self;
            _new_version := _new_version self;
            _old_version := _old_version self;
            _manifest := _manifest self;
            _inventory_keys := _inventory_keys self;
            _keys_to_add := remote_keys ∖ _inventory_keys self;
            _keys_to_remove :=
              if mirror then _inventory_keys self ∖ remote_keys
              else _keys_to_remove self |}
  end.

(** The body of the loop of [_build_additions] past the [continue]. *)
Definition pending_content (parsed_url : ParseResult) (root_dir : string)
    (entry : Entry) : PendingContent :=
  let path := join root_dir (entry_path entry) in
  let url := urlunparse env (_replace_path parsed_url path) in
  let file := mkFileContent (entry_path entry) (entry_digest entry) in
  let artifact := mkArtifact (entry_size entry) (entry_digest entry) in
  mkPendingContent file
    [mkPendingArtifact artifact url (entry_path entry)].

(** [_build_additions]: the generator, as the list of what it yields. *)
Definition _build_additions (self : Synchronizer)
    : Result (list PendingContent) :=
  let parsed_url := urlparse env (feed_url (_importer self)) in
  let root_dir := dirname (path parsed_url) in
  match _manifest self with
  | None => Raise (AttributeError "read")
  | Some manifest =>
      Ok (flat_map
            (λ entry,
               let key := Key_of_entry entry in
               if decide (key ∈ _keys_to_add self)
               then [pending_content parsed_url root_dir entry]
               else [])
            (read manifest))
  end.

(** One round of the loop of [_build_removals]: the lookup of one batch,
    projected to the identifiers. *)
Definition removals_of_batch (self : Synchronizer) (natural_keys : list Key)
    : Result (list Pk) :=
  let q := foldl (λ q key, Q_or q (Q_natural_key key)) Q_empty natural_keys in
  match _old_version self with
  | None => Raise (AttributeError "content")
  | Some old_version =>
      Ok (content_id <$> Q_filter q (content env old_version))
  end.

(** [_build_removals]; a Python set is iterated in some order of its
    elements, here the order of [elements]. *)
Definition _build_removals (self : Synchronizer) : Result (list Pk) :=
  concat_mapR (removals_of_batch self)
              (BatchIterator (elements (_keys_to_remove self))).

(** [run] up to the construction of the [ChangeSet].  The two generators
    are drained by the engine; they are evaluated here, where an exception
    of theirs leaves [run] just the same. *)
Definition run_changeset (self : Synchronizer)
    : Result (ChangeSet * Synchronizer) :=
  self ←ᵣ _fetch_manifest self;
  let self := _fetch_inventory self in
  self ←ᵣ _find_delta true self;
  built_additions ←ᵣ _build_additions self;
  built_removals ←ᵣ _build_removals self;
  let additions :=
    mkSizedIterable built_additions (size (_keys_to_add self)) in
  let removals :=
    mkSizedIterable built_removals (size (_keys_to_remove self)) in
  Ok (mkChangeSet (_importer self) (_new_version self) additions removals,
      self).

(** [run]. *)
Definition run (self : Synchronizer) : Result Synchronizer :=
  cs ←ᵣ run_changeset self;
  _ ←ᵣ apply_and_drain env cs.1;
  Ok cs.2.

End Synchronizer.

(** ** The database and the task monad *)

Record DB := mkDB {
  importers : gmap Pk FileImporter;
  publishers : gmap Pk FilePublisher;
  repositories : gmap Pk Repository;
  versions : gmap Pk RepositoryVersion;
  created_resources : gmap Pk CreatedResource;
  publications : gmap Pk Publication;
  published_artifacts : gmap Pk PublishedArtifact;
  published_metadata : gmap Pk PublishedMetadata
}.

(** A task step: it returns or raises, and leaves a database behind either
    way. *)
Definition Task (A : Type) : Type := DB → Result A * DB.

Definition ret {A} (a : A) : Task A := λ db, (Ok a, db).

Definition raise {A} (e : Exception) : Task A := λ db, (Raise e, db).

Definition bindT {A B} (m : Task A) (k : A → Task B) : Task B :=
  λ db,
    match m db with
    | (Ok a, db') => k a db'
    | (Raise e, db') => (Raise e, db')
    end.

Notation "x ←ₜ m ; k" := (bindT m (λ x, k))
  (at level 100, m at next level, right associativity) : result_scope.
Notation "m ;;ₜ k" := (bindT m (λ _, k))
  (at level 100, k at level 200, right associativity) : result_scope.

(** A call that does not touch the database. *)
Definition lift {A} (r : Result A) : Task A := λ db, (r, db).

(** [with transaction.atomic():] an exception leaving the block rolls the
    database back to where the block began, and goes on. *)
Definition atomic {A} (m : Task A) : Task A :=
  λ db,
    match m db with
    | (Ok a, db') => (Ok a, db')
    | (Raise e, _) => (Raise e, db)
    end.

(** [try: m / except Exception as e: handler]. *)
Definition try_except {A} (m : Task A) (handler : Exception → Task A)
    : Task A :=
  λ db,
    match m db with
    | (Ok a, db') => (Ok a, db')
    | (Raise e, db') => handler e db'
    end.

(** [with suppress(RepositoryVersion.DoesNotExist):] around an assignment
    to a variable that starts as [None]. *)
Definition suppress_DoesNotExist {A} (m : Task A) : Task (option A) :=
  λ db,
    match m db with
    | (Ok a, db') => (Ok (Some a), db')
    | (Raise (DoesNotExist model), db') =>
        if String.eqb model "RepositoryVersion" then (Ok None, db')
        else (Raise (DoesNotExist model), db')
    | (Raise e, db') => (Raise e, db')
    end.

Fixpoint for_each {A B} (f : A → Task (list B)) (l : list A)
    : Task (list B) :=
  match l with
  | [] => ret []
  | x :: l' =>
      ys ←ₜ f x;
      zs ←ₜ for_each f l';
      ret (ys ++ zs)%list
  end.

(** [Model.objects.get(pk=pk)]. *)
Definition objects_get {R} (model : string) (table : DB → gmap Pk R) (pk : Pk)
    : Task R :=
  λ db,
    match table db !! pk with
    | Some row => (Ok row, db)
    | None => (Raise (DoesNotExist model), db)
    end.

(** The primary key a new row of a table gets. *)
Definition new_pk {R} (table : gmap Pk R) : Pk := fresh (dom table).

Definition set_repositories (f : gmap Pk Repository → gmap Pk Repository)
    (db : DB) : DB :=
  {| importers := importers db; publishers := publishers db;
     repositories := f (repositories db); versions := versions db;
     created_resources := created_resources db;
     publications := publications db;
     published_artifacts := published_artifacts db;
     published_metadata := published_metadata db |}.

Definition set_versions
    (f : gmap Pk RepositoryVersion → gmap Pk RepositoryVersion)
    (db : DB) : DB :=
  {| importers := importers db; publishers := publishers db;
     repositories := repositories db; versions := f (versions db);
     created_resources := created_resources db;
     publications := publications db;
     published_artifacts := published_artifacts db;
     published_metadata := published_metadata db |}.

Definition set_created_resources
    (f : gmap Pk CreatedResource → gmap Pk CreatedResource)
    (db : DB) : DB :=
  {| importers := importers db; publishers := publishers db;
     repositories := repositories db; versions := versions db;
     created_resources := f (created_resources db);
     publications := publications db;
     published_artifacts := published_artifacts db;
     published_metadata := published_metadata db |}.

Definition set_publications (f : gmap Pk Publication → gmap Pk Publication)
    (db : DB) : DB :=
  {| importers := importers db; publishers := publishers db;
     repositories := repositories db; versions := versions db;
     created_resources := created_resources db;
     publications := f (publications db);
     published_artifacts := published_artifacts db;
     published_metadata := published_metadata db |}.

Definition set_published_artifacts
    (f : gmap Pk PublishedArtifact → gmap Pk PublishedArtifact)
    (db : DB) : DB :=
  {| importers := importers db; publishers := publishers db;
     repositories := repositories db; versions := versions db;
     created_resources := created_resources db;
     publications := publications db;
     published_artifacts := f (published_artifacts db);
     published_metadata := published_metadata db |}.

Definition set_published_metadata
    (f : gmap Pk PublishedMetadata → gmap Pk PublishedMetadata)
    (db : DB) : DB :=
  {| importers := importers db; publishers := publishers db;
     repositories := repositories db; versions := versions db;
     created_resources := created_resources db;
     publications := publications db;
     published_artifacts := published_artifacts db;
     published_metadata := f (published_metadata db) |}.

(** [obj.save()] of a new object: the row is inserted under a new key. *)
Definition save_new {R} (table : DB → gmap Pk R)
    (set : (gmap Pk R → gmap Pk R) → DB → DB) (row : R) : Task Pk :=
  λ db,
    let pk := new_pk (table db) in
    (Ok pk, set (λ t, <[pk := row]> t) db).

(** [obj.save()] of an object that has a key: the row is written there. *)
Definition save {R} (set : (gmap Pk R → gmap Pk R) → DB → DB) (pk : Pk)
    (row : R) : Task unit :=
  λ db, (Ok (), set (λ t, <[pk := row]> t) db).

(** [obj.delete()]. *)
Definition delete_row {R} (set : (gmap Pk R → gmap Pk R) → DB → DB) (pk : Pk)
    : Task unit :=
  λ db, (Ok (), set (λ t, delete pk t) db).

(** [publication.delete()]: the published artifacts and metadata of the
    publication go with it (their foreign keys cascade). *)
Definition delete_publication (pk : Pk) : Task unit :=
  λ db,
    (Ok (),
     set_published_metadata
       (filter (λ kv, metadata_publication kv.2 ≠ pk))
       (set_published_artifacts
          (filter (λ kv, published_publication kv.2 ≠ pk))
          (set_publications (delete pk) db))).

(** [repository.versions.exclude(complete=False).latest()]: the complete
    version of the repository with the greatest number. *)
Definition newer (repository : Pk) (pk : Pk) (v : RepositoryVersion)
    (best : option (Pk * RepositoryVersion)) : option (Pk * RepositoryVersion) :=
  if bool_decide (version_repository v = repository) && complete v then
    match best with
    | Some (_, b) => if number b <? number v then Some (pk, v) else best
    | None => Some (pk, v)
    end
  else best.

Definition latest_complete (repository : Pk)
    : Task (Pk * RepositoryVersion) :=
  λ db,
    match map_fold (newer repository) None (versions db) with
    | Some v => (Ok v, db)
    | None => (Raise (DoesNotExist "RepositoryVersion"), db)
    end.

(** ** The tasks *)

(** Python's truth value of a nullable string. *)
Definition truthy (s : option string) : bool :=
  match s with
  | None => false
  | Some s => negb (String.eqb s "")
  end.

Section Tasks.
Variable env : Collaborators.

(** [_find_artifact]. *)
Definition _find_artifact (content_artifact : ContentArtifact)
    (repository : Pk) : Task Artifact :=
  match ca_artifact content_artifact with
  | Some artifact => ret artifact
  | None => lift (remote_artifact_get env (ca_id content_artifact) repository)
  end.

(** [_publish]: the generator, run to its end; it saves a published
    artifact before each entry it yields. *)
Definition _publish (publication : Pk) (repository_version : Pk)
    (repository : Pk) : Task (list Entry) :=
  for_each
    (λ content,
       for_each
         (λ content_artifact,
            artifact ←ₜ _find_artifact content_artifact repository;
            _ ←ₜ save_new published_artifacts set_published_artifacts
                   (mkPublishedArtifact (ca_relative_path content_artifact)
                                        publication
                                        (ca_id content_artifact));
            ret [mkEntry (ca_relative_path content_artifact)
                         (artifact_sha256 artifact)
                         (artifact_size artifact)])
         (contentartifact_set env content))
    (content env repository_version).

(** [publish(publisher_pk, repository_pk)]. *)
Definition publish (publisher_pk repository_pk : Pk) : Task unit :=
  publisher ←ₜ objects_get "FilePublisher" publishers publisher_pk;
  repository ←ₜ objects_get "Repository" repositories repository_pk;
  repository_version ←ₜ latest_complete repository_pk;
  atomic (
    publication ←ₜ save_new publications set_publications
                     (mkPublication publisher_pk repository_version.1);
    created_resource ←ₜ save_new created_resources set_created_resources
                          (mkCreatedResource (PublicationObject publication));
    try_except (
      let manifest_path := "PULP_MANIFEST" in
      entries ←ₜ _publish publication repository_version.1
                   (version_repository repository_version.2);
      _ ←ₜ lift (manifest_write env manifest_path entries);
      file ←ₜ lift (open_file env manifest_path);
      _ ←ₜ save_new published_metadata set_published_metadata
             (mkPublishedMetadata (basename manifest_path) publication file);
      ret ())
    (λ e,
       delete_publication publication ;;ₜ
       delete_row set_created_resources created_resource)).

(** [sync(importer_pk)]. *)
Definition sync (importer_pk : Pk) : Task unit :=
  importer ←ₜ objects_get "FileImporter" importers importer_pk;
  if negb (truthy (feed_url importer)) then
    raise (ValueError "An importer must have a 'feed_url' attribute to sync.")
  else
    repository ←ₜ
      objects_get "Repository" repositories (importer_repository importer);
    base_version ←ₜ
      suppress_DoesNotExist (latest_complete (importer_repository importer));
    created ←ₜ atomic (
      let new_number := last_version repository + 1 in
      let new_version :=
        mkRepositoryVersion (importer_repository importer) new_number false in
      new_version_pk ←ₜ save_new versions set_versions new_version;
      _ ←ₜ save set_repositories (importer_repository importer)
             (mkRepository (repository_name repository) new_number);
      created_resource ←ₜ save_new created_resources set_created_resources
                            (mkCreatedResource (VersionObject new_version_pk));
      ret (new_version_pk, new_version, created_resource));
    let '(new_version_pk, new_version, created_resource) := created in
    let synchronizer :=
      Synchronizer_init importer new_version_pk (fst <$> base_version) in
    try_except (
      _ ←ₜ lift (run env synchronizer);
      atomic (
        save set_versions new_version_pk
          (mkRepositoryVersion (version_repository new_version)
                               (number new_version) true)))
    (λ e,
       atomic (
         delete_row set_versions new_version_pk ;;ₜ
         delete_row set_created_resources created_resource) ;;ₜ
       raise e).

End Tasks.

(** ** Notions the statements use *)

(** The natural key of the content a descriptor would create. *)
Definition Key_of_pending (d : PendingContent) : Key :=
  mkKey (file_path (pc_model d)) (file_digest (pc_model d)).

(** The key set of a content listing. *)
Definition inventory_of (rows : list Content) : gset Key :=
  list_to_set (Key_of_content <$> rows).

(** The entries of a manifest that pass the test of [_build_additions]. *)
Definition surviving (self : Synchronizer) (manifest : Manifest) : list Entry :=
  filter (λ e, Key_of_entry e ∈ _keys_to_add self) (read manifest).

(** The rows the lookup finds for one key, and what they yield. *)
Definition found (rows : list Content) (k : Key) : list Content :=
  filter (λ c, Key_of_content c = k) rows.

Definition yielded_for (rows : list Content) (k : Key) : list Pk :=
  content_id <$> found rows k.

(** The version [sync] takes as its base: the latest complete one, if any. *)
Definition base_version (repository : Pk) (db : DB) : option Pk :=
  fst <$> map_fold (newer repository) None (versions db).

(** The database once [sync] has created the new version and its tracking
    record. *)
Definition created_by_sync (importer : FileImporter) (repository : Repository)
    (db : DB) : DB :=
  let new_number := last_version repository + 1 in
  let db1 :=
    set_versions
      (<[new_pk (versions db) :=
           mkRepositoryVersion (importer_repository importer) new_number
                               false]>)
      db in
  let db2 :=
    set_repositories
      (<[importer_repository importer :=
           mkRepository (repository_name repository) new_number]>)
      db1 in
  set_created_resources
    (<[new_pk (created_resources db2) :=
         mkCreatedResource (VersionObject (new_pk (versions db)))]>)
    db2.

(** ** A fixture

    Concrete collaborators, rows and synchronizers on which the statements
    below are instantiated. *)

Definition fixture_feed : string := "http://host/pub/files/PULP_MANIFEST?x=1".

Definition fixture_entries : list Entry :=
  [mkEntry "a.txt" "d1" 10; mkEntry "b.txt" "d2" 20].

Definition fixture_old_rows : list Content :=
  [mkContent 1 "a.txt" "d1"; mkContent 2 "old.txt" "dX"].

Definition fixture_new_rows : list Content :=
  [mkContent 1 "a.txt" "d1"; mkContent 3 "b.txt" "d2"].

Definition fixture_env : Collaborators :=
  {| downloader_fetch := λ _ _, Ok "/tmp/PULP_MANIFEST";
     manifest_at := λ _, fixture_entries;
     urlparse := λ _,
       mkParseResult "http" "host" "/pub/files/PULP_MANIFEST" "" "x=1" "";
     urlunparse := λ u,
       scheme u ++ "://" ++ netloc u ++ path u ++ "?" ++ query u;
     content := λ version,
       if decide (version = 1%positive) then fixture_old_rows
       else if decide (version = 2%positive) then fixture_new_rows
       else [];
     apply_and_drain := λ _, Raise (OtherError "apply");
     contentartifact_set := λ c,
       [mkContentArtifact (content_id c) (content_path c)
          (if decide (content_id c = 1%positive)
           then Some (mkArtifact 10 (content_digest c))
           else None)];
     remote_artifact_get := λ _ _, Raise (DoesNotExist "RemoteArtifact");
     manifest_write := λ _ _, Ok ();
     open_file := λ _, Ok "PULP_MANIFEST" |}.

Definition fixture_importer : FileImporter :=
  mkFileImporter "files" (Some fixture_feed) 1.

Definition fixture_db : DB :=
  {| importers :=
       {[ 1%positive := fixture_importer;
          2%positive := mkFileImporter "unset" None 1 ]};
     publishers := {[ 1%positive := mkFilePublisher "http" ]};
     repositories := {[ 1%positive := mkRepository "files" 1 ]};
     versions := {[ 1%positive := mkRepositoryVersion 1 1 true ]};
     created_resources := ∅;
     publications := ∅;
     published_artifacts := ∅;
     published_metadata := ∅ |}.

(** The synchronizer of the fixture once the manifest and the inventory are
    in. *)
Definition fixture_synchronizer : Synchronizer :=
  {| _importer := fixture_importer;
     _new_version := 2;
     _old_version := Some 1%positive;
     _manifest := Some (mkManifest "/tmp/PULP_MANIFEST" fixture_entries);
     _inventory_keys := {[ mkKey "a.txt" "d1"; mkKey "old.txt" "dX" ]};
     _keys_to_add := ∅;
     _keys_to_remove := ∅ |}.

(** A manifest that lists one key twice, with two sizes, synchronized into
    an empty repository. *)
Definition duplicate_entries : list Entry :=
  [mkEntry "a.txt" "d1" 10; mkEntry "a.txt" "d1" 11].

Definition duplicate_fetched : Synchronizer :=
  {| _importer := fixture_importer;
     _new_version := 1;
     _old_version := None;
     _manifest := Some (mkManifest "/tmp/PULP_MANIFEST" duplicate_entries);
     _inventory_keys := ∅;
     _keys_to_add := ∅;
     _keys_to_remove := ∅ |}.

Definition duplicate_synchronizer : Synchronizer :=
  {| _importer := fixture_importer;
     _new_version := 1;
     _old_version := None;
     _manifest := Some (mkManifest "/tmp/PULP_MANIFEST" duplicate_entries);
     _inventory_keys := ∅;
     _keys_to_add := {[ mkKey "a.txt" "d1" ]};
     _keys_to_remove := ∅ |}.

Definition duplicate_descriptor (size : Z) : PendingContent :=
  mkPendingContent (mkFileContent "a.txt" "d1")
    [mkPendingArtifact (mkArtifact size "d1")
       "http://host/pub/files/a.txt?x=1" "a.txt"].

(** The database of the fixture once [publish] has created the publication
    and its tracking record. *)
Definition fixture_publishing : DB :=
  set_created_resources
    (<[1%positive := mkCreatedResource (PublicationObject 1)]>)
    (set_publications (<[1%positive := mkPublication 1 1]>) fixture_db).

(** ** Further notions and fixtures *)

(** The content artifacts [_publish] walks through: those of every content
    unit of the version, in order. *)
Definition content_artifacts (env : Collaborators) (repository_version : Pk)
    : list ContentArtifact :=
  flat_map (contentartifact_set env) (content env repository_version).

(** No version of a repository is numbered beyond the repository's
    [last_version]. *)
Definition versions_bounded (db : DB) : Prop :=
  ∀ pk v repository,
    versions db !! pk = Some v →
    repositories db !! version_repository v = Some repository →
    number v ≤ last_version repository.

(** No published artifact and no published metadata refers to a
    publication. *)
Definition unreferenced (publication : Pk) (db : DB) : Prop :=
  (∀ i x, published_artifacts db !! i = Some x →
          published_publication x ≠ publication) ∧
  (∀ i x, published_metadata db !! i = Some x →
          metadata_publication x ≠ publication).

(** The fixture after [_find_delta], and the change set [run] builds. *)
Definition fixture_delta : Synchronizer :=
  {| _importer := fixture_importer;
     _new_version := 2;
     _old_version := Some 1%positive;
     _manifest := Some (mkManifest "/tmp/PULP_MANIFEST" fixture_entries);
     _inventory_keys := {[ mkKey "a.txt" "d1"; mkKey "old.txt" "dX" ]};
     _keys_to_add := {[ mkKey "b.txt" "d2" ]};
     _keys_to_remove := {[ mkKey "old.txt" "dX" ]} |}.

Definition fixture_changeset : ChangeSet :=
  mkChangeSet fixture_importer 2
    (mkSizedIterable
       [mkPendingContent (mkFileContent "b.txt" "d2")
          [mkPendingArtifact (mkArtifact 20 "d2")
             "http://host/pub/files/b.txt?x=1" "b.txt"]] 1)
    (mkSizedIterable [2%positive] 1).

(** Collaborators that all succeed: the engine applies the change set and
    every content artifact has a remote artifact. *)
Definition fixture_env_ok : Collaborators :=
  {| downloader_fetch := downloader_fetch fixture_env;
     manifest_at := manifest_at fixture_env;
     urlparse := urlparse fixture_env;
     urlunparse := urlunparse fixture_env;
     content := content fixture_env;
     apply_and_drain := λ _, Ok ();
     contentartifact_set := contentartifact_set fixture_env;
     remote_artifact_get := λ _ _, Ok (mkArtifact 7 "dR");
     manifest_write := manifest_write fixture_env;
     open_file := open_file fixture_env |}.

(** The fixture with an empty manifest, and with a manifest whose one
    entry has an absolute path. *)
Definition fixture_empty_manifest : Synchronizer :=
  {| _importer := fixture_importer;
     _new_version := 2;
     _old_version := Some 1%positive;
     _manifest := Some (mkManifest "/tmp/PULP_MANIFEST" []);
     _inventory_keys := {[ mkKey "a.txt" "d1"; mkKey "old.txt" "dX" ]};
     _keys_to_add := ∅;
     _keys_to_remove := ∅ |}.

Definition fixture_absolute : Synchronizer :=
  {| _importer := fixture_importer;
     _new_version := 2;
     _old_version := None;
     _manifest :=
       Some (mkManifest "/tmp/PULP_MANIFEST" [mkEntry "/etc/x" "d9" 1]);
     _inventory_keys := ∅;
     _keys_to_add := {[ mkKey "/etc/x" "d9" ]};
     _keys_to_remove := ∅ |}.

(** What a step of [_publish] may do to the database: add published
    artifacts of one publication, and nothing else. *)
Definition publishes (publication : Pk) (db db' : DB) : Prop :=
  importers db' = importers db ∧
  publishers db' = publishers db ∧
  repositories db' = repositories db ∧
  versions db' = versions db ∧
  created_resources db' = created_resources db ∧
  publications db' = publications db ∧
  published_metadata db' = published_metadata db ∧
  (∀ i x, published_artifacts db !! i = Some x →
          published_artifacts db' !! i = Some x) ∧
  (∀ i x, published_artifacts db' !! i = Some x →
          published_artifacts db !! i = Some x
          ∨ published_publication x = publication).

(** The entry [_publish] yields for a content artifact. *)
Definition entry_of (env : Collaborators) (repository : Pk) (e : Entry)
    (content_artifact : ContentArtifact) : Prop :=
  entry_path e = ca_relative_path content_artifact ∧
  match ca_artifact content_artifact with
  | Some artifact =>
      entry_digest e = artifact_sha256 artifact ∧
      entry_size e = artifact_size artifact
  | None =>
      ∃ remote,
        remote_artifact_get env (ca_id content_artifact) repository
          = Ok remote ∧
        entry_digest e = artifact_sha256 remote ∧
        entry_size e = artifact_size remote
  end.

(** The body of the [try] of [publish]. *)
Definition publish_body (env : Collaborators) (publication : Pk)
    (repository_version : Pk * RepositoryVersion) : Task unit :=
  let manifest_path := "PULP_MANIFEST" in
  entries ←ₜ _publish env publication repository_version.1
               (version_repository repository_version.2);
  _ ←ₜ lift (manifest_write env manifest_path entries);
  file ←ₜ lift (open_file env manifest_path);
  _ ←ₜ save_new published_metadata set_published_metadata
         (mkPublishedMetadata (basename manifest_path) publication file);
  ret ().

(** The database once [publish] has created the publication and its
    tracking record. *)
Definition created_by_publish (publisher_pk : Pk) (repository_version : Pk)
    (db : DB) : DB :=
  set_created_resources
    (<[new_pk (created_resources db) :=
         mkCreatedResource (PublicationObject (new_pk (publications db)))]>)
    (set_publications
       (<[new_pk (publications db) :=
            mkPublication publisher_pk repository_version]>)
       db).

(** ** [os.path] on examples *)

Example dirname_feed : dirname "/pub/files/PULP_MANIFEST" = "/pub/files".
Proof. reflexivity. Qed.

Example dirname_root : dirname "/PULP_MANIFEST" = "/".
Proof. reflexivity. Qed.

Example dirname_bare : dirname "PULP_MANIFEST" = "".
Proof. reflexivity. Qed.

Example dirname_double : dirname "/a//b" = "/a".
Proof. reflexivity. Qed.

Example join_relative : join "/pub/files" "b.txt" = "/pub/files/b.txt".
Proof. reflexivity. Qed.

Example join_root : join "/" "b.txt" = "/b.txt".
Proof. reflexivity. Qed.

Example join_empty : join "" "b.txt" = "b.txt".
Proof. reflexivity. Qed.

Example join_absolute : join "/pub/files" "/etc/b.txt" = "/etc/b.txt".
Proof. reflexivity. Qed.

Example basename_manifest : basename "PULP_MANIFEST" = "PULP_MANIFEST".
Proof. reflexivity. Qed.

(** ** Properties of the synchronizer *)

Lemma elem_of_remote_keys (k : Key) (entries : list Entry) :
  k ∈ (list_to_set (Key_of_entry <$> entries) : gset Key) ↔
  ∃ e, e ∈ entries ∧ Key_of_entry e = k.
Proof.
  rewrite elem_of_list_to_set, list_elem_of_fmap.
  split; intros (e & H1 & H2); exists e; auto.
Qed.

Lemma find_delta_ok (mirror : bool) (self : Synchronizer) (manifest : Manifest) :
  _manifest self = Some manifest →
  ∃ self',
    _find_delta mirror self = Ok self' ∧
    _manifest self' = Some manifest ∧
    _importer self' = _importer self ∧
    _old_version self' = _old_version self ∧
    _inventory_keys self' = _inventory_keys self ∧
    _keys_to_add self' =
      list_to_set (Key_of_entry <$> read manifest) ∖ _inventory_keys self ∧
    _keys_to_remove self' =
      (if mirror
       then _inventory_keys self ∖ list_to_set (Key_of_entry <$> read manifest)
       else _keys_to_remove self).
Proof.
  intros Hm. unfold _find_delta. rewrite Hm.
  eexists. split; [reflexivity|]. simpl. repeat split.
Qed.

(** C1.  On a synchronizer whose manifest has been fetched and whose
    [_keys_to_remove] is still the empty set of [__init__], [_find_delta]
    returns with [_keys_to_add] the keys of the manifest entries that are not
    in the inventory, with [_keys_to_remove] the inventory keys that no
    manifest entry has when [mirror] is true and the empty set when it is
    false, and the two sets are disjoint. *)
Theorem find_delta_sets (mirror : bool) (self : Synchronizer)
    (manifest : Manifest) :
  _manifest self = Some manifest →
  _keys_to_remove self = ∅ →
  ∃ self',
    _find_delta mirror self = Ok self' ∧
    (∀ k, k ∈ _keys_to_add self' ↔
          (∃ e, e ∈ read manifest ∧ Key_of_entry e = k)
          ∧ k ∉ _inventory_keys self) ∧
    (∀ k, k ∈ _keys_to_remove self' ↔
          mirror = true ∧ k ∈ _inventory_keys self
          ∧ ¬ (∃ e, e ∈ read manifest ∧ Key_of_entry e = k)) ∧
    (mirror = false → _keys_to_remove self' = ∅) ∧
    _keys_to_add self' ## _keys_to_remove self'.
Proof.
  intros Hm Hrm.
  destruct (find_delta_ok mirror self manifest Hm)
    as (self' & Hrun & _ & _ & _ & _ & Hadd & Hrem).
  exists self'. split; [exact Hrun|].
  rewrite Hadd, Hrem, Hrm. clear Hrun Hadd Hrem.
  split; [|split; [|split]].
  - intros k. rewrite elem_of_difference, elem_of_remote_keys. tauto.
  - intros k. destruct mirror.
    + rewrite elem_of_difference, elem_of_remote_keys. tauto.
    + rewrite elem_of_empty. split; [tauto|]. by intros [? _].
  - by intros ->.
  - intros k Ha Hr. destruct mirror.
    + apply elem_of_difference in Ha as [_ Ha].
      apply elem_of_difference in Hr as [Hr _]. by apply Ha.
    + by apply not_elem_of_empty in Hr.
Qed.

Lemma find_delta_sets_witness :
  ∃ self',
    _find_delta true fixture_synchronizer = Ok self' ∧
    (∀ k, k ∈ _keys_to_add self' ↔
          (∃ e, e ∈ fixture_entries ∧ Key_of_entry e = k)
          ∧ k ∉ _inventory_keys fixture_synchronizer) ∧
    (∀ k, k ∈ _keys_to_remove self' ↔
          true = true ∧ k ∈ _inventory_keys fixture_synchronizer
          ∧ ¬ (∃ e, e ∈ fixture_entries ∧ Key_of_entry e = k)) ∧
    (true = false → _keys_to_remove self' = ∅) ∧
    _keys_to_add self' ## _keys_to_remove self'.
Proof.
  apply (find_delta_sets true fixture_synchronizer
           (mkManifest "/tmp/PULP_MANIFEST" fixture_entries));
    reflexivity.
Defined.

Lemma foldl_add_keys (rows : list Content) (keys : gset Key) :
  foldl (λ keys c, keys ∪ {[ Key_of_content c ]}) keys rows
  = keys ∪ inventory_of rows.
Proof.
  unfold inventory_of. revert keys.
  induction rows as [|c rows IH]; intros keys; simpl.
  - by rewrite (right_id_L ∅ (∪)).
  - by rewrite IH, (assoc_L (∪)).
Qed.

Lemma fetch_inventory_keys (env : Collaborators) (self : Synchronizer) :
  _inventory_keys (_fetch_inventory env self)
  = _inventory_keys self
    ∪ inventory_of (from_option (content env) [] (_old_version self)).
Proof.
  unfold _fetch_inventory.
  destruct (_old_version self) as [old_version|]; simpl.
  - apply foldl_add_keys.
  - unfold inventory_of. simpl. by rewrite (right_id_L ∅ (∪)).
Qed.

Lemma fetch_inventory_frame (env : Collaborators) (self : Synchronizer) :
  _manifest (_fetch_inventory env self) = _manifest self ∧
  _importer (_fetch_inventory env self) = _importer self ∧
  _old_version (_fetch_inventory env self) = _old_version self ∧
  _keys_to_remove (_fetch_inventory env self) = _keys_to_remove self.
Proof.
  unfold _fetch_inventory.
  destruct (_old_version self) as [old_version|] eqn:Hold; simpl; auto.
Qed.

Lemma fetch_manifest_ok (env : Collaborators) (self self' : Synchronizer) :
  _fetch_manifest env self = Ok self' →
  ∃ downloader_path,
    downloader_fetch env (_importer self) (feed_url (_importer self))
      = Ok downloader_path ∧
    _manifest self'
      = Some (mkManifest downloader_path (manifest_at env downloader_path)) ∧
    _importer self' = _importer self ∧
    _old_version self' = _old_version self ∧
    _inventory_keys self' = _inventory_keys self ∧
    _keys_to_remove self' = _keys_to_remove self.
Proof.
  unfold _fetch_manifest, bindR.
  destruct (downloader_fetch env _ _) as [p|e]; [|discriminate].
  intros [= <-]. exists p. simpl. auto 10.
Qed.

(** C7.  A synchronizer built without a pre-existing version has an empty
    inventory after [_fetch_inventory], before and after the manifest is
    fetched, and [_find_delta] then leaves [_keys_to_remove] empty whatever
    [mirror] is. *)
Theorem first_sync_removes_nothing (env : Collaborators)
    (importer : FileImporter) (new_version : Pk) (mirror : bool)
    (fetched : Synchronizer) :
  _fetch_manifest env (Synchronizer_init importer new_version None)
    = Ok fetched →
  _inventory_keys
    (_fetch_inventory env (Synchronizer_init importer new_version None)) = ∅ ∧
  _inventory_keys (_fetch_inventory env fetched) = ∅ ∧
  ∃ self',
    _find_delta mirror (_fetch_inventory env fetched) = Ok self' ∧
    _keys_to_remove self' = ∅.
Proof.
  intros Hfetch.
  apply fetch_manifest_ok in Hfetch
    as (p & _ & Hm & _ & Hold & Hinv & Hrem). simpl in *.
  assert (Hempty : _inventory_keys (_fetch_inventory env fetched) = ∅).
  { rewrite fetch_inventory_keys, Hold, Hinv. simpl.
    unfold inventory_of. simpl. by rewrite (right_id_L ∅ (∪)). }
  split; [reflexivity|]. split; [exact Hempty|].
  destruct (fetch_inventory_frame env fetched) as (Hm' & _ & _ & Hrem').
  destruct (find_delta_ok mirror (_fetch_inventory env fetched) _
              (eq_trans Hm' Hm))
    as (self' & Hrun & _ & _ & _ & _ & _ & Hr).
  exists self'. split; [exact Hrun|].
  rewrite Hr, Hempty, Hrem', Hrem.
  destruct mirror; [|reflexivity].
  apply empty_difference_L.
Qed.

Lemma first_sync_removes_nothing_witness :
  _inventory_keys
    (_fetch_inventory fixture_env (Synchronizer_init fixture_importer 1 None))
    = ∅ ∧
  _inventory_keys
    (_fetch_inventory fixture_env
       {| _importer := fixture_importer; _new_version := 1;
          _old_version := None;
          _manifest := Some (mkManifest "/tmp/PULP_MANIFEST" fixture_entries);
          _inventory_keys := ∅; _keys_to_add := ∅; _keys_to_remove := ∅ |})
    = ∅ ∧
  ∃ self',
    _find_delta false
      (_fetch_inventory fixture_env
         {| _importer := fixture_importer; _new_version := 1;
            _old_version := None;
            _manifest := Some (mkManifest "/tmp/PULP_MANIFEST" fixture_entries);
            _inventory_keys := ∅; _keys_to_add := ∅; _keys_to_remove := ∅ |})
      = Ok self' ∧
    _keys_to_remove self' = ∅.
Proof.
  apply (first_sync_removes_nothing fixture_env fixture_importer 1 false).
  reflexivity.
Defined.

(** *** The additions *)

Lemma Key_of_pending_content (env : Collaborators) (u : ParseResult)
    (root_dir : string) (e : Entry) :
  Key_of_pending (pending_content env u root_dir e) = Key_of_entry e.
Proof. reflexivity. Qed.

Lemma build_additions_ok (env : Collaborators) (self : Synchronizer)
    (manifest : Manifest) :
  _manifest self = Some manifest →
  _build_additions env self
  = Ok (pending_content env (urlparse env (feed_url (_importer self)))
          (dirname (path (urlparse env (feed_url (_importer self)))))
        <$> surviving self manifest).
Proof.
  intros Hm. unfold _build_additions, surviving. rewrite Hm. f_equal.
  induction (read manifest) as [|e entries IH]; [reflexivity|].
  simpl. rewrite filter_cons.
  destruct (decide (Key_of_entry e ∈ _keys_to_add self)); simpl;
    by rewrite IH.
Qed.

Lemma pending_keys (env : Collaborators) (u : ParseResult) (root_dir : string)
    (entries : list Entry) :
  Key_of_pending <$> (pending_content env u root_dir <$> entries)
  = Key_of_entry <$> entries.
Proof. rewrite <- list_fmap_compose. reflexivity. Qed.

Lemma NoDup_fmap_filter {A B} (f : A → B) (P : A → Prop)
    `{∀ x, Decision (P x)} (l : list A) :
  NoDup (f <$> l) → NoDup (f <$> filter P l).
Proof.
  induction l as [|a l IH]; [done|].
  rewrite fmap_cons, NoDup_cons. intros [Ha Hl].
  rewrite filter_cons. destruct (decide (P a)); [|by apply IH].
  rewrite fmap_cons, NoDup_cons. split; [|by apply IH].
  rewrite list_elem_of_fmap. intros (x & Hx & Hin).
  apply list_elem_of_filter in Hin as [_ Hin].
  apply Ha. rewrite list_elem_of_fmap. by exists x.
Qed.

(** C2, as the code has it.  [_build_additions] yields the descriptors of
    the surviving entries, the entries of the manifest whose key is in
    [_keys_to_add], one for one and in the order of the manifest.  When the
    entries of the manifest are pairwise distinct by key, no two descriptors
    share a key. *)
Theorem build_additions_one_per_surviving_entry (env : Collaborators)
    (self : Synchronizer) (manifest : Manifest) :
  _manifest self = Some manifest →
  ∃ descriptors,
    _build_additions env self = Ok descriptors ∧
    Forall2 (λ d e,
               d = pending_content env
                     (urlparse env (feed_url (_importer self)))
                     (dirname (path (urlparse env (feed_url (_importer self)))))
                     e)
            descriptors (surviving self manifest) ∧
    Key_of_pending <$> descriptors
      = filter (λ k, k ∈ _keys_to_add self) (Key_of_entry <$> read manifest) ∧
    (NoDup (Key_of_entry <$> read manifest) →
     NoDup (Key_of_pending <$> descriptors)).
Proof.
  intros Hm. eexists. split; [by apply build_additions_ok|].
  split; [|split].
  - apply Forall2_fmap_l, Forall_Forall2_diag, Forall_forall. done.
  - rewrite pending_keys. unfold surviving.
    induction (read manifest) as [|e entries IH]; [reflexivity|].
    rewrite fmap_cons, !filter_cons.
    destruct (decide (Key_of_entry e ∈ _keys_to_add self));
      [rewrite fmap_cons|]; by rewrite IH.
  - intros Hnd. rewrite pending_keys. by apply NoDup_fmap_filter.
Qed.

Lemma build_additions_one_per_surviving_entry_witness :
  ∃ descriptors,
    _build_additions fixture_env fixture_delta = Ok descriptors ∧
    Forall2 (λ d e,
               d = pending_content fixture_env
                     (urlparse fixture_env
                        (feed_url (_importer fixture_delta)))
                     (dirname
                        (path (urlparse fixture_env
                                 (feed_url (_importer fixture_delta)))))
                     e)
            descriptors
            (surviving fixture_delta
               (mkManifest "/tmp/PULP_MANIFEST" fixture_entries)) ∧
    Key_of_pending <$> descriptors
      = filter (λ k, k ∈ _keys_to_add fixture_delta)
               (Key_of_entry <$> fixture_entries) ∧
    (NoDup (Key_of_entry <$> fixture_entries) →
     NoDup (Key_of_pending <$> descriptors)).
Proof.
  apply (build_additions_one_per_surviving_entry fixture_env fixture_delta
           (mkManifest "/tmp/PULP_MANIFEST" fixture_entries)).
  reflexivity.
Defined.

(** C2, as stated, fails: on a manifest with two entries under one key
    [_build_additions] yields two descriptors with that key, the first of
    them from the first occurrence. *)
Lemma build_additions_repeats_duplicate_keys :
  _find_delta true duplicate_fetched = Ok duplicate_synchronizer ∧
  _build_additions fixture_env duplicate_synchronizer
    = Ok [duplicate_descriptor 10; duplicate_descriptor 11] ∧
  ¬ NoDup (Key_of_pending
             <$> [duplicate_descriptor 10; duplicate_descriptor 11]).
Proof.
  split; [by vm_compute|]. split; [by vm_compute|].
  intros Hnd. apply NoDup_cons in Hnd as [Hnotin _].
  apply Hnotin. apply list_elem_of_here.
Qed.

(** C5.  For every manifest entry whose key is in [_keys_to_add],
    [_build_additions] yields a descriptor for the content of that path and
    digest with one artifact, whose size and digest are the entry's, whose
    relative path is the entry's path, and whose URL is the unparsed feed
    URL with its path replaced by [join (dirname feed_path) entry_path] and
    every other component (scheme, host, parameters, query, fragment) as
    in the feed URL. *)
Theorem build_additions_descriptor (env : Collaborators) (self : Synchronizer)
    (manifest : Manifest) (entry : Entry) :
  _manifest self = Some manifest →
  entry ∈ read manifest →
  Key_of_entry entry ∈ _keys_to_add self →
  let feed := urlparse env (feed_url (_importer self)) in
  ∃ descriptors d a u,
    _build_additions env self = Ok descriptors ∧
    d ∈ descriptors ∧
    pc_model d = mkFileContent (entry_path entry) (entry_digest entry) ∧
    pc_artifacts d = [a] ∧
    artifact_size (pa_model a) = entry_size entry ∧
    artifact_sha256 (pa_model a) = entry_digest entry ∧
    pa_relative_path a = entry_path entry ∧
    pa_url a = urlunparse env u ∧
    path u = join (dirname (path feed)) (entry_path entry) ∧
    scheme u = scheme feed ∧
    netloc u = netloc feed ∧
    params u = params feed ∧
    query u = query feed ∧
    fragment u = fragment feed.
Proof.
  intros Hm Hin Hkey feed.
  exists (pending_content env feed (dirname (path feed))
            <$> surviving self manifest),
         (pending_content env feed (dirname (path feed)) entry).
  eexists _, _.
  split; [by apply build_additions_ok|].
  split.
  { apply list_elem_of_fmap. exists entry. split; [reflexivity|].
    unfold surviving. by apply list_elem_of_filter. }
  simpl. repeat (split; [reflexivity|]). reflexivity.
Qed.

Lemma build_additions_descriptor_witness :
  let self :=
    {| _importer := fixture_importer; _new_version := 2;
       _old_version := Some 1%positive;
       _manifest := Some (mkManifest "/tmp/PULP_MANIFEST" fixture_entries);
       _inventory_keys := {[ mkKey "a.txt" "d1"; mkKey "old.txt" "dX" ]};
       _keys_to_add := {[ mkKey "b.txt" "d2" ]};
       _keys_to_remove := {[ mkKey "old.txt" "dX" ]} |} in
  let entry := mkEntry "b.txt" "d2" 20 in
  let feed := urlparse fixture_env (feed_url (_importer self)) in
  ∃ descriptors d a u,
    _build_additions fixture_env self = Ok descriptors ∧
    d ∈ descriptors ∧
    pc_model d = mkFileContent (entry_path entry) (entry_digest entry) ∧
    pc_artifacts d = [a] ∧
    artifact_size (pa_model a) = entry_size entry ∧
    artifact_sha256 (pa_model a) = entry_digest entry ∧
    pa_relative_path a = entry_path entry ∧
    pa_url a = urlunparse fixture_env u ∧
    path u = join (dirname (path feed)) (entry_path entry) ∧
    scheme u = scheme feed ∧
    netloc u = netloc feed ∧
    params u = params feed ∧
    query u = query feed ∧
    fragment u = fragment feed.
Proof.
  intros self entry.
  apply (build_additions_descriptor fixture_env self
           (mkManifest "/tmp/PULP_MANIFEST" fixture_entries) entry).
  - reflexivity.
  - apply list_elem_of_further, list_elem_of_here.
  - by vm_compute.
Defined.

(** The scenario of the spec: one addition, for [b.txt], fetched from the
    directory of the feed. *)
Example build_additions_scenario :
  bindR (_find_delta true fixture_synchronizer)
        (_build_additions fixture_env)
  = Ok [mkPendingContent (mkFileContent "b.txt" "d2")
          [mkPendingArtifact (mkArtifact 20 "d2")
             "http://host/pub/files/b.txt?x=1" "b.txt"]].
Proof. by vm_compute. Qed.

(** *** The change set of [run] *)

Lemma run_changeset_ok (env : Collaborators) (self self' : Synchronizer)
    (cs : ChangeSet) :
  run_changeset env self = Ok (cs, self') →
  ∃ fetched,
    _fetch_manifest env self = Ok fetched ∧
    _find_delta true (_fetch_inventory env fetched) = Ok self' ∧
    _build_additions env self' = Ok (iterable (additions cs)) ∧
    _build_removals env self' = Ok (iterable (removals cs)) ∧
    declared_length (additions cs) = size (_keys_to_add self') ∧
    declared_length (removals cs) = size (_keys_to_remove self') ∧
    cs_importer cs = _importer self' ∧
    cs_new_version cs = _new_version self'.
Proof.
  unfold run_changeset, bindR.
  destruct (_fetch_manifest env self) as [fetched|e] eqn:Hfetch;
    [|discriminate].
  destruct (_find_delta true (_fetch_inventory env fetched))
    as [delta|e] eqn:Hdelta; [|discriminate].
  destruct (_build_additions env delta) as [built_additions|e] eqn:Hadd;
    [|discriminate].
  destruct (_build_removals env delta) as [built_removals|e] eqn:Hrem;
    [|discriminate].
  intros [= <- <-]. exists fetched. simpl.
  rewrite Hdelta, Hadd, Hrem.
  repeat (split; [reflexivity|]). reflexivity.
Qed.

Lemma length_surviving (keys : gset Key) (entries : list Entry) :
  NoDup (Key_of_entry <$> entries) →
  keys ⊆ list_to_set (Key_of_entry <$> entries) →
  length (filter (λ e, Key_of_entry e ∈ keys) entries) = size keys.
Proof.
  intros Hnd Hsub.
  rewrite <- (length_fmap Key_of_entry).
  rewrite <- (size_list_to_set (C := gset Key))
    by (by apply NoDup_fmap_filter).
  f_equal. apply set_eq. intros k.
  rewrite elem_of_list_to_set, list_elem_of_fmap. split.
  - intros (e & -> & He). by apply list_elem_of_filter in He as [He _].
  - intros Hk. pose proof (Hsub k Hk) as Hr.
    apply elem_of_remote_keys in Hr as (e & He & <-).
    exists e. split; [reflexivity|]. by apply list_elem_of_filter.
Qed.

(** C9.  When the entries of the fetched manifest are pairwise distinct by
    key, the additions handed to the change set by [run] yield as many
    descriptors as the length declared for them, which is the size of
    [_keys_to_add]; and the key of every descriptor yielded is a member of
    [_keys_to_add]. *)
Theorem additions_length_as_declared (env : Collaborators)
    (self self' : Synchronizer) (cs : ChangeSet) (manifest : Manifest) :
  run_changeset env self = Ok (cs, self') →
  _manifest self' = Some manifest →
  NoDup (Key_of_entry <$> read manifest) →
  length (iterable (additions cs)) = declared_length (additions cs) ∧
  declared_length (additions cs) = size (_keys_to_add self') ∧
  Forall (λ d, Key_of_pending d ∈ _keys_to_add self')
         (iterable (additions cs)).
Proof.
  intros Hrun Hm Hnd.
  apply run_changeset_ok in Hrun
    as (fetched & _ & Hdelta & Hadd & _ & Hlen & _).
  rewrite (build_additions_ok env self' manifest Hm) in Hadd.
  injection Hadd as Hadd. rewrite <- Hadd, Hlen. clear Hadd Hlen.
  assert (Hsub : _keys_to_add self'
                 ⊆ list_to_set (Key_of_entry <$> read manifest)).
  { unfold _find_delta in Hdelta.
    destruct (_manifest (_fetch_inventory env fetched)) as [m|] eqn:Hm';
      [|discriminate].
    injection Hdelta as <-. simpl in *. injection Hm as <-.
    intros k Hk. by apply elem_of_difference in Hk as [Hk _]. }
  split; [|split; [reflexivity|]].
  - rewrite length_fmap. unfold surviving. by apply length_surviving.
  - apply Forall_fmap, Forall_forall. intros e He.
    unfold surviving in He. by apply list_elem_of_filter in He as [He _].
Qed.

Lemma additions_length_as_declared_witness :
  let cs :=
    mkChangeSet fixture_importer 2
      (mkSizedIterable
         [mkPendingContent (mkFileContent "b.txt" "d2")
            [mkPendingArtifact (mkArtifact 20 "d2")
               "http://host/pub/files/b.txt?x=1" "b.txt"]] 1)
      (mkSizedIterable [2%positive] 1) in
  let self' :=
    {| _importer := fixture_importer; _new_version := 2;
       _old_version := Some 1%positive;
       _manifest := Some (mkManifest "/tmp/PULP_MANIFEST" fixture_entries);
       _inventory_keys := {[ mkKey "a.txt" "d1"; mkKey "old.txt" "dX" ]};
       _keys_to_add := {[ mkKey "b.txt" "d2" ]};
       _keys_to_remove := {[ mkKey "old.txt" "dX" ]} |} in
  length (iterable (additions cs)) = declared_length (additions cs) ∧
  declared_length (additions cs) = size (_keys_to_add self') ∧
  Forall (λ d, Key_of_pending d ∈ _keys_to_add self')
         (iterable (additions cs)).
Proof.
  intros cs self'.
  apply (additions_length_as_declared fixture_env
           (Synchronizer_init fixture_importer 2 (Some 1%positive))
           self' cs (mkManifest "/tmp/PULP_MANIFEST" fixture_entries)).
  - by vm_compute.
  - reflexivity.
  - apply (bool_decide_unpack _). by vm_compute.
Defined.

(** *** The removals *)

Lemma batches_concat {A} (batch fuel : nat) (l : list A) :
  (0 < batch)%nat → (length l < fuel)%nat →
  concat (batches batch fuel l) = l.
Proof.
  intros Hbatch. revert l.
  induction fuel as [|fuel IH]; intros l Hfuel; [lia|].
  cbn [batches].
  destruct (take batch l) as [|x items] eqn:Htake.
  - destruct l as [|y l]; [reflexivity|].
    destruct batch; [lia|discriminate].
  - rewrite <- Htake. cbn [concat]. rewrite IH.
    + apply take_drop.
    + rewrite length_drop.
      destruct l as [|y l]; [by rewrite take_nil in Htake|].
      simpl in *. lia.
Qed.

Lemma batches_nonempty {A} (batch fuel : nat) (l : list A) :
  Forall (λ items, items ≠ []) (batches batch fuel l).
Proof.
  revert l. induction fuel as [|fuel IH]; intros l; cbn [batches];
    [constructor|].
  destruct (take batch l) as [|x items] eqn:Htake; [constructor|].
  constructor; [discriminate|apply IH].
Qed.

Lemma BatchIterator_concat {A} (l : list A) : concat (BatchIterator l) = l.
Proof. unfold BatchIterator. apply batches_concat; lia. Qed.

Lemma Q_natural_key_true (k : Key) (c : Content) :
  Q_natural_key k c = true ↔ Key_of_content c = k.
Proof.
  unfold Q_natural_key, Key_of_content. destruct k as [p d]. simpl.
  rewrite andb_true_iff, !bool_decide_eq_true. split.
  - by intros [-> ->].
  - by intros [= -> ->].
Qed.

Lemma Q_fold_cond (p : Content → bool) (natural_keys : list Key) :
  ∃ p',
    foldl (λ q key, Q_or q (Q_natural_key key)) (Q_cond p) natural_keys
      = Q_cond p' ∧
    ∀ c, p' c = true ↔ p c = true ∨ Key_of_content c ∈ natural_keys.
Proof.
  revert p. induction natural_keys as [|k ks IH]; intros p; simpl.
  - exists p. split; [reflexivity|]. intros c. rewrite elem_of_nil. tauto.
  - destruct (IH (λ c, p c || Q_natural_key k c)) as (p' & Hfold & Hp').
    exists p'. split; [exact Hfold|]. intros c.
    rewrite Hp', orb_true_iff, Q_natural_key_true, elem_of_cons.
    split; [intros [[?|?]|?]|intros [?|[?|?]]]; auto.
Qed.

Lemma removals_of_batch_ok (env : Collaborators) (self : Synchronizer)
    (old_version : Pk) (natural_keys : list Key) :
  _old_version self = Some old_version →
  natural_keys ≠ [] →
  removals_of_batch env self natural_keys
  = Ok (content_id
          <$> filter (λ c, Key_of_content c ∈ natural_keys)
                     (content env old_version)).
Proof.
  intros Hold Hne. unfold removals_of_batch. rewrite Hold.
  destruct natural_keys as [|k ks]; [done|]. simpl.
  destruct (Q_fold_cond (Q_natural_key k) ks) as (p' & -> & Hp').
  simpl. do 2 f_equal. apply list_filter_iff. intros c.
  rewrite Hp', Q_natural_key_true, elem_of_cons. split; intros [?|?]; auto.
Qed.

Lemma concat_mapR_ok {A B} (f : A → Result (list B)) (g : A → list B)
    (l : list A) :
  Forall (λ x, f x = Ok (g x)) l →
  concat_mapR f l = Ok (concat (g <$> l)).
Proof.
  induction 1 as [|x l Hx _ IH]; [reflexivity|].
  simpl. by rewrite Hx, IH.
Qed.

Lemma filter_disjoint_or {A} (P R : A → Prop) `{∀ x, Decision (P x)}
    `{∀ x, Decision (R x)} (l : list A) :
  (∀ x, P x → R x → False) →
  filter (λ x, P x ∨ R x) l ≡ₚ filter P l ++ filter R l.
Proof.
  intros Hdisj. induction l as [|a l IH]; [reflexivity|].
  rewrite !filter_cons.
  destruct (decide (P a)) as [HP|HP], (decide (R a)) as [HR|HR].
  - destruct (Hdisj a HP HR).
  - rewrite decide_True by auto. simpl. by rewrite IH.
  - rewrite decide_True by auto. rewrite IH. apply Permutation_middle.
  - rewrite decide_False by tauto. exact IH.
Qed.

(** The rows one batch finds are the rows each of its keys finds. *)
Lemma filter_batch_per_key (rows : list Content) (natural_keys : list Key) :
  NoDup natural_keys →
  filter (λ c, Key_of_content c ∈ natural_keys) rows
  ≡ₚ concat ((λ k, filter (λ c, Key_of_content c = k) rows) <$> natural_keys).
Proof.
  induction 1 as [|k ks Hk _ IH]; simpl.
  - induction rows as [|c rows IHr]; [reflexivity|].
    rewrite filter_cons, decide_False; [exact IHr|]. apply not_elem_of_nil.
  - transitivity
      (filter (λ c, Key_of_content c = k ∨ Key_of_content c ∈ ks) rows).
    + erewrite list_filter_iff; [reflexivity|].
      intros c. apply elem_of_cons.
    + rewrite filter_disjoint_or; [by rewrite IH|].
      intros c -> Hin. by apply Hk.
Qed.

Lemma fmap_concat_fmap {A B C} (f : B → C) (F : A → list B) (l : list A) :
  f <$> concat (F <$> l) = concat ((λ x, f <$> F x) <$> l).
Proof.
  induction l as [|x l IH]; [reflexivity|].
  rewrite !fmap_cons. cbn [concat]. by rewrite fmap_app, IH.
Qed.

Lemma removals_per_key (rows : list Content) (batches : list (list Key)) :
  NoDup (concat batches) →
  concat ((λ natural_keys,
             content_id
               <$> filter (λ c, Key_of_content c ∈ natural_keys) rows)
          <$> batches)
  ≡ₚ concat (yielded_for rows <$> concat batches).
Proof.
  induction batches as [|b bs IH]; [reflexivity|].
  simpl. rewrite NoDup_app. intros (Hb & _ & Hbs).
  rewrite fmap_app, concat_app, (IH Hbs).
  apply Permutation_app; [|reflexivity].
  rewrite (filter_batch_per_key rows b Hb).
  by rewrite fmap_concat_fmap.
Qed.

Lemma filter_none {A} (P : A → Prop) `{∀ x, Decision (P x)} (l : list A) :
  (∀ x, x ∈ l → ¬ P x) → filter P l = [].
Proof.
  induction l as [|a l IH]; intros Hno; [reflexivity|].
  rewrite filter_cons, decide_False by (apply Hno, list_elem_of_here).
  apply IH. intros x Hx. by apply Hno, list_elem_of_further.
Qed.

Lemma found_unique (rows : list Content) (c : Content) :
  NoDup (Key_of_content <$> rows) →
  c ∈ rows →
  found rows (Key_of_content c) = [c].
Proof.
  unfold found. induction rows as [|r rows IH]; intros Hnd Hin.
  - by apply elem_of_nil in Hin.
  - rewrite fmap_cons, NoDup_cons in Hnd. destruct Hnd as [Hr Hnd].
    rewrite filter_cons.
    apply elem_of_cons in Hin as [->|Hin].
    + rewrite decide_True by reflexivity. f_equal.
      apply filter_none. intros x Hx Heq. apply Hr. rewrite <- Heq.
      apply list_elem_of_fmap. by exists x.
    + rewrite decide_False; [by apply IH|].
      intros Heq. apply Hr. rewrite Heq.
      apply list_elem_of_fmap. by exists c.
Qed.

Lemma build_removals_ok (env : Collaborators) (self : Synchronizer)
    (old_version : Pk) :
  _old_version self = Some old_version →
  ∃ identifiers,
    _build_removals env self = Ok identifiers ∧
    identifiers
      ≡ₚ concat (yielded_for (content env old_version)
                 <$> elements (_keys_to_remove self)).
Proof.
  intros Hold. eexists. split.
  - unfold _build_removals. apply concat_mapR_ok.
    eapply Forall_impl; [apply batches_nonempty|].
    intros natural_keys Hne. simpl.
    by apply (removals_of_batch_ok env self old_version).
  - etransitivity.
    + apply removals_per_key.
      rewrite BatchIterator_concat. apply NoDup_elements.
    + by rewrite BatchIterator_concat.
Qed.

(** C6.  With a pre-existing version, [_build_removals] returns without an
    exception, and what it yields is, up to order, what each key of
    [_keys_to_remove] yields on its own: nothing for a key that no row of
    the version's content has, and the identifier of its single row for a
    key that is found, the natural key being unique among the rows. *)
Theorem build_removals_skips_missing_keys (env : Collaborators)
    (self : Synchronizer) (old_version : Pk) :
  _old_version self = Some old_version →
  let rows := content env old_version in
  ∃ identifiers,
    _build_removals env self = Ok identifiers ∧
    identifiers
      ≡ₚ concat (yielded_for rows <$> elements (_keys_to_remove self)) ∧
    (∀ k, k ∈ _keys_to_remove self →
          (∀ c, c ∈ rows → Key_of_content c ≠ k) →
          yielded_for rows k = []) ∧
    (∀ k c, k ∈ _keys_to_remove self →
            c ∈ rows → Key_of_content c = k →
            NoDup (Key_of_content <$> rows) →
            yielded_for rows k = [content_id c]).
Proof.
  intros Hold rows.
  destruct (build_removals_ok env self old_version Hold)
    as (identifiers & Hrun & Hperm).
  exists identifiers. split; [exact Hrun|]. split; [exact Hperm|]. split.
  - intros k _ Hmissing. unfold yielded_for, found.
    rewrite filter_none; [reflexivity|].
    intros c Hc. by apply Hmissing.
  - intros k c _ Hc <- Hnd. unfold yielded_for.
    by rewrite found_unique.
Qed.

Lemma build_removals_skips_missing_keys_witness :
  let self :=
    {| _importer := fixture_importer; _new_version := 2;
       _old_version := Some 1%positive;
       _manifest := Some (mkManifest "/tmp/PULP_MANIFEST" fixture_entries);
       _inventory_keys := {[ mkKey "a.txt" "d1"; mkKey "old.txt" "dX" ]};
       _keys_to_add := {[ mkKey "b.txt" "d2" ]};
       _keys_to_remove := {[ mkKey "old.txt" "dX"; mkKey "gone.txt" "dG" ]} |} in
  let rows := content fixture_env 1 in
  ∃ identifiers,
    _build_removals fixture_env self = Ok identifiers ∧
    identifiers
      ≡ₚ concat (yielded_for rows <$> elements (_keys_to_remove self)) ∧
    (∀ k, k ∈ _keys_to_remove self →
          (∀ c, c ∈ rows → Key_of_content c ≠ k) →
          yielded_for rows k = []) ∧
    (∀ k c, k ∈ _keys_to_remove self →
            c ∈ rows → Key_of_content c = k →
            NoDup (Key_of_content <$> rows) →
            yielded_for rows k = [content_id c]).
Proof.
  intros self.
  apply (build_removals_skips_missing_keys fixture_env self 1).
  reflexivity.
Defined.

(** A key to remove that the lookup does not find yields nothing, and the
    generator goes on to the keys that are found. *)
Example build_removals_missing_key :
  _build_removals fixture_env
    {| _importer := fixture_importer; _new_version := 2;
       _old_version := Some 1%positive;
       _manifest := Some (mkManifest "/tmp/PULP_MANIFEST" fixture_entries);
       _inventory_keys := {[ mkKey "a.txt" "d1"; mkKey "old.txt" "dX" ]};
       _keys_to_add := {[ mkKey "b.txt" "d2" ]};
       _keys_to_remove := {[ mkKey "old.txt" "dX"; mkKey "gone.txt" "dG" ]} |}
  = Ok [2%positive].
Proof. by vm_compute. Qed.

Lemma elem_of_concat_fmap {A B} (F : A → list B) (l : list A) (y : B) :
  y ∈ concat (F <$> l) ↔ ∃ x, x ∈ l ∧ y ∈ F x.
Proof.
  induction l as [|a l IH].
  - simpl. split; [intros H; by apply elem_of_nil in H|].
    intros (x & H & _). by apply elem_of_nil in H.
  - rewrite fmap_cons. cbn [concat]. rewrite elem_of_app, IH. split.
    + intros [Hy|(x & Hx & Hy)].
      * exists a. split; [apply list_elem_of_here|exact Hy].
      * exists x. split; [by apply list_elem_of_further|exact Hy].
    + intros (x & Hx & Hy). apply elem_of_cons in Hx as [->|Hx]; [by left|].
      right. by exists x.
Qed.

(** What [_build_removals] yields, when it returns: the identifiers of the
    rows of the old version whose key is to be removed. *)
Lemma build_removals_elem (env : Collaborators) (self : Synchronizer)
    (identifiers : list Pk) :
  _build_removals env self = Ok identifiers →
  ∀ i, i ∈ identifiers ↔
       ∃ c, c ∈ from_option (content env) [] (_old_version self)
            ∧ content_id c = i
            ∧ Key_of_content c ∈ _keys_to_remove self.
Proof.
  intros Hrun i.
  destruct (_old_version self) as [old_version|] eqn:Hold; simpl.
  - destruct (build_removals_ok env self old_version Hold)
      as (ids & Hids & Hperm).
    rewrite Hrun in Hids. injection Hids as <-.
    rewrite Hperm, elem_of_concat_fmap. unfold yielded_for, found. split.
    + intros (k & Hk & Hi).
      apply list_elem_of_fmap in Hi as (c & -> & Hc).
      apply list_elem_of_filter in Hc as [<- Hc].
      exists c. split; [exact Hc|]. split; [reflexivity|].
      by apply elem_of_elements in Hk.
    + intros (c & Hc & <- & Hk).
      exists (Key_of_content c). split; [by apply elem_of_elements|].
      apply list_elem_of_fmap. exists c. split; [reflexivity|].
      by apply list_elem_of_filter.
  - unfold _build_removals in Hrun.
    destruct (BatchIterator (elements (_keys_to_remove self)))
      as [|b bs]; simpl in Hrun.
    + injection Hrun as <-. split.
      * intros H. by apply elem_of_nil in H.
      * intros (c & H & _). by apply elem_of_nil in H.
    + unfold removals_of_batch in Hrun at 1. rewrite Hold in Hrun.
      discriminate.
Qed.

Lemma NoDup_fmap_eq {A B} (f : A → B) (l : list A) (x y : A) :
  NoDup (f <$> l) → x ∈ l → y ∈ l → f x = f y → x = y.
Proof.
  induction l as [|a l IH]; intros Hnd Hx Hy Heq.
  - by apply elem_of_nil in Hx.
  - rewrite fmap_cons, NoDup_cons in Hnd. destruct Hnd as [Ha Hnd].
    apply elem_of_cons in Hx as [->|Hx], Hy as [->|Hy].
    + reflexivity.
    + destruct Ha. rewrite Heq. apply list_elem_of_fmap. by exists y.
    + destruct Ha. rewrite <- Heq. apply list_elem_of_fmap. by exists x.
    + by apply IH.
Qed.

Lemma elem_of_inventory_of (rows : list Content) (k : Key) :
  k ∈ inventory_of rows ↔ ∃ c, c ∈ rows ∧ Key_of_content c = k.
Proof.
  unfold inventory_of. rewrite elem_of_list_to_set, list_elem_of_fmap.
  split; intros (c & H1 & H2); exists c; auto.
Qed.

(** *** Synchronizing twice *)

Lemma run_delta (env : Collaborators) (importer : FileImporter)
    (new_version : Pk) (old_version : option Pk)
    (fetched self' : Synchronizer) :
  _fetch_manifest env (Synchronizer_init importer new_version old_version)
    = Ok fetched →
  _find_delta true (_fetch_inventory env fetched) = Ok self' →
  ∃ p,
    downloader_fetch env importer (feed_url importer) = Ok p ∧
    _manifest self' = Some (mkManifest p (manifest_at env p)) ∧
    _importer self' = importer ∧
    _old_version self' = old_version ∧
    _keys_to_add self'
      = list_to_set (Key_of_entry <$> manifest_at env p)
        ∖ inventory_of (from_option (content env) [] old_version) ∧
    _keys_to_remove self'
      = inventory_of (from_option (content env) [] old_version)
        ∖ list_to_set (Key_of_entry <$> manifest_at env p).
Proof.
  intros Hfetch Hdelta.
  apply fetch_manifest_ok in Hfetch
    as (p & Hp & Hm & Himp & Hold & Hinv & _). simpl in *.
  destruct (fetch_inventory_frame env fetched) as (Hm' & Himp' & Hold' & _).
  destruct (find_delta_ok true (_fetch_inventory env fetched) _
              (eq_trans Hm' Hm))
    as (s & Hs & Hms & Hims & Holds & _ & Hadd & Hrem).
  rewrite Hdelta in Hs. injection Hs as <-.
  exists p. split; [exact Hp|]. split; [exact Hms|].
  split; [by rewrite Hims, Himp'|]. split; [by rewrite Holds, Hold'|].
  rewrite Hadd, Hrem, fetch_inventory_keys, Hinv, Hold.
  rewrite (left_id_L ∅ (∪)). by split.
Qed.

Lemma run_changeset_synced (env : Collaborators) (importer : FileImporter)
    (new_version : Pk) (old_version : option Pk) (p : string) :
  downloader_fetch env importer (feed_url importer) = Ok p →
  inventory_of (from_option (content env) [] old_version)
    = list_to_set (Key_of_entry <$> manifest_at env p) →
  ∃ cs self',
    run_changeset env (Synchronizer_init importer new_version old_version)
      = Ok (cs, self') ∧
    _keys_to_add self' = ∅ ∧
    _keys_to_remove self' = ∅ ∧
    iterable (additions cs) = [] ∧
    iterable (removals cs) = [].
Proof.
  intros Hp Hsame.
  destruct (_fetch_manifest env
              (Synchronizer_init importer new_version old_version))
    as [fetched|e] eqn:Hfetch.
  2: { unfold _fetch_manifest in Hfetch. simpl in Hfetch.
       rewrite Hp in Hfetch. discriminate. }
  pose proof (fetch_manifest_ok _ _ _ Hfetch)
    as (p' & Hp' & Hm & _). simpl in Hp'.
  destruct (fetch_inventory_frame env fetched) as (Hm' & _).
  destruct (find_delta_ok true (_fetch_inventory env fetched) _
              (eq_trans Hm' Hm)) as (self' & Hdelta & _).
  destruct (run_delta env importer new_version old_version fetched self'
              Hfetch Hdelta)
    as (q & Hq & Hms & _ & _ & Hadd & Hrem).
  rewrite Hp in Hq. injection Hq as <-.
  rewrite Hsame, difference_diag_L in Hadd, Hrem.
  assert (Hbuilt : _build_additions env self' = Ok []).
  { rewrite (build_additions_ok env self' _ Hms). unfold surviving.
    rewrite filter_none; [reflexivity|].
    intros e _. rewrite Hadd. apply not_elem_of_empty. }
  assert (Hremoved : _build_removals env self' = Ok []).
  { unfold _build_removals. by rewrite Hrem, elements_empty. }
  eexists _, self'. split.
  - unfold run_changeset. rewrite Hfetch. cbn [bindR].
    rewrite Hdelta. cbn [bindR]. rewrite Hbuilt. cbn [bindR].
    rewrite Hremoved. cbn [bindR]. reflexivity.
  - simpl. auto.
Qed.

(** C4.  Let a first [run], which calls [_find_delta] with [mirror] true,
    have built its change set against the content of the old version, whose
    rows have distinct identifiers; and let it be fully applied: the keys of
    the new version's content are the keys of the old rows that were not
    yielded for removal together with the keys of the descriptors yielded
    for addition.  Then a second [run] on the same importer, based on the
    new version, computes an empty [_keys_to_add] and an empty
    [_keys_to_remove], and yields no addition and no removal. *)
Theorem second_sync_finds_no_delta (env : Collaborators)
    (importer : FileImporter) (new_version next_version : Pk)
    (old_version : option Pk) (cs : ChangeSet) (self' : Synchronizer) :
  let old_rows := from_option (content env) [] old_version in
  NoDup (content_id <$> old_rows) →
  run_changeset env (Synchronizer_init importer new_version old_version)
    = Ok (cs, self') →
  inventory_of (content env new_version)
    = inventory_of
        (filter (λ c, content_id c ∉ iterable (removals cs)) old_rows)
      ∪ list_to_set (Key_of_pending <$> iterable (additions cs)) →
  ∃ cs2 self2,
    run_changeset env
      (Synchronizer_init importer next_version (Some new_version))
      = Ok (cs2, self2) ∧
    _keys_to_add self2 = ∅ ∧
    _keys_to_remove self2 = ∅ ∧
    iterable (additions cs2) = [] ∧
    iterable (removals cs2) = [].
Proof.
  intros old_rows Hids Hrun Happlied.
  apply run_changeset_ok in Hrun
    as (fetched & Hfetch & Hdelta & Hadds & Hrems & _).
  destruct (run_delta env importer new_version old_version fetched self'
              Hfetch Hdelta)
    as (p & Hp & Hm & _ & Hold & Hadd & Hrem).
  fold old_rows in Hadd, Hrem.
  pose proof (build_removals_elem env self' _ Hrems) as Hremoved.
  rewrite Hold in Hremoved. fold old_rows in Hremoved.
  rewrite (build_additions_ok env self' _ Hm) in Hadds.
  injection Hadds as Hadds. simpl in Hadds.
  apply (run_changeset_synced env importer next_version (Some new_version) p
           Hp).
  simpl. rewrite Happlied. apply set_eq. intros k.
  rewrite elem_of_union, elem_of_inventory_of, elem_of_list_to_set,
    elem_of_remote_keys.
  split.
  - intros [(c & Hc & <-)|Hk].
    + apply list_elem_of_filter in Hc as [Hkept Hc].
      destruct (decide (Key_of_content c
                        ∈ (list_to_set (Key_of_entry <$> manifest_at env p)
                           : gset Key))) as [Hin|Hout].
      * by apply elem_of_remote_keys in Hin.
      * destruct Hkept. apply Hremoved. exists c.
        split; [exact Hc|]. split; [reflexivity|].
        rewrite Hrem. apply elem_of_difference. split; [|exact Hout].
        apply elem_of_inventory_of. by exists c.
    + rewrite <- Hadds, pending_keys in Hk.
      apply list_elem_of_fmap in Hk as (e & -> & He).
      apply list_elem_of_filter in He as [_ He]. by exists e.
  - intros (e & He & <-).
    destruct (decide (Key_of_entry e ∈ inventory_of old_rows)) as [Hin|Hout].
    + left. apply elem_of_inventory_of in Hin as (c & Hc & Hkey).
      exists c. split; [|exact Hkey].
      apply list_elem_of_filter. split; [|exact Hc].
      intros Hyielded. apply Hremoved in Hyielded as (c' & Hc' & Hid & Hk').
      assert (c' = c) as ->
        by (by apply (NoDup_fmap_eq content_id old_rows)).
      rewrite Hrem, Hkey in Hk'.
      apply elem_of_difference in Hk' as [_ Hk']. apply Hk'.
      apply elem_of_remote_keys. by exists e.
    + right. rewrite <- Hadds, pending_keys.
      apply list_elem_of_fmap. exists e. split; [reflexivity|].
      apply list_elem_of_filter. split; [|exact He].
      rewrite Hadd. apply elem_of_difference. split; [|exact Hout].
      apply elem_of_remote_keys. by exists e.
Qed.

Lemma second_sync_finds_no_delta_witness :
  ∃ cs2 self2,
    run_changeset fixture_env
      (Synchronizer_init fixture_importer 3 (Some 2%positive))
      = Ok (cs2, self2) ∧
    _keys_to_add self2 = ∅ ∧
    _keys_to_remove self2 = ∅ ∧
    iterable (additions cs2) = [] ∧
    iterable (removals cs2) = [].
Proof.
  apply (second_sync_finds_no_delta fixture_env fixture_importer 2 3
           (Some 1%positive)
           (mkChangeSet fixture_importer 2
              (mkSizedIterable
                 [mkPendingContent (mkFileContent "b.txt" "d2")
                    [mkPendingArtifact (mkArtifact 20 "d2")
                       "http://host/pub/files/b.txt?x=1" "b.txt"]] 1)
              (mkSizedIterable [2%positive] 1))
           {| _importer := fixture_importer; _new_version := 2;
              _old_version := Some 1%positive;
              _manifest :=
                Some (mkManifest "/tmp/PULP_MANIFEST" fixture_entries);
              _inventory_keys :=
                {[ mkKey "a.txt" "d1"; mkKey "old.txt" "dX" ]};
              _keys_to_add := {[ mkKey "b.txt" "d2" ]};
              _keys_to_remove := {[ mkKey "old.txt" "dX" ]} |}).
  - apply (bool_decide_unpack _). by vm_compute.
  - by vm_compute.
  - by vm_compute.
Defined.

(** ** Properties of the tasks *)

Lemma new_pk_fresh {R} (table : gmap Pk R) : table !! new_pk table = None.
Proof. apply not_elem_of_dom, is_fresh. Qed.

Lemma suppress_latest_complete (repository : Pk) (db : DB) :
  suppress_DoesNotExist (latest_complete repository) db
  = (Ok (map_fold (newer repository) None (versions db)), db).
Proof.
  unfold suppress_DoesNotExist, latest_complete.
  by destruct (map_fold (newer repository) None (versions db)).
Qed.

(** [sync] past its checks, by the outcome of [Synchronizer.run]. *)
Lemma sync_by_run (env : Collaborators) (importer_pk : Pk)
    (importer : FileImporter) (repository : Repository) (db : DB) :
  importers db !! importer_pk = Some importer →
  truthy (feed_url importer) = true →
  repositories db !! importer_repository importer = Some repository →
  sync env importer_pk db =
    match run env (Synchronizer_init importer (new_pk (versions db))
                     (base_version (importer_repository importer) db)) with
    | Ok _ =>
        (Ok (),
         set_versions
           (<[new_pk (versions db) :=
                mkRepositoryVersion (importer_repository importer)
                                    (last_version repository + 1) true]>)
           (created_by_sync importer repository db))
    | Raise e =>
        (Raise e,
         set_created_resources
           (delete (new_pk (created_resources db)))
           (set_versions (delete (new_pk (versions db)))
              (created_by_sync importer repository db)))
    end.
Proof.
  intros Himp Hfeed Hrepo.
  unfold sync, bindT at 1, objects_get at 1. rewrite Himp, Hfeed.
  cbn [negb]. unfold bindT at 1, objects_get at 1. rewrite Hrepo.
  unfold bindT at 1. rewrite suppress_latest_complete.
  unfold bindT at 1. cbn.
  unfold try_except, bindT, lift, base_version.
  destruct (run env _) as [s|e]; reflexivity.
Qed.

Lemma failed_sync_db (importer : FileImporter) (repository : Repository)
    (db : DB) :
  set_created_resources
    (delete (new_pk (created_resources db)))
    (set_versions (delete (new_pk (versions db)))
       (created_by_sync importer repository db))
  = set_repositories
      (<[importer_repository importer :=
           mkRepository (repository_name repository)
                        (last_version repository + 1)]>)
      db.
Proof.
  unfold created_by_sync, set_created_resources, set_versions,
    set_repositories. simpl. f_equal.
  - apply delete_insert_id, new_pk_fresh.
  - apply delete_insert_id, new_pk_fresh.
Qed.

(** C8.  With a [feed_url] that is missing or empty, [sync] raises
    [ValueError] and leaves the database as it found it: no version is
    created, [last_version] is not incremented and no tracking record is
    created. *)
Theorem sync_requires_feed_url (env : Collaborators) (importer_pk : Pk)
    (importer : FileImporter) (db : DB) :
  importers db !! importer_pk = Some importer →
  feed_url importer = None ∨ feed_url importer = Some "" →
  ∃ msg db',
    sync env importer_pk db = (Raise (ValueError msg), db') ∧
    db' = db ∧
    versions db' = versions db ∧
    repositories db' = repositories db ∧
    created_resources db' = created_resources db.
Proof.
  intros Himp Hfeed.
  exists "An importer must have a 'feed_url' attribute to sync.", db.
  split; [|by repeat split].
  unfold sync, bindT, objects_get. rewrite Himp.
  by destruct Hfeed as [-> | ->].
Qed.

Lemma sync_requires_feed_url_witness :
  ∃ msg db',
    sync fixture_env 2 fixture_db = (Raise (ValueError msg), db') ∧
    db' = fixture_db ∧
    versions db' = versions fixture_db ∧
    repositories db' = repositories fixture_db ∧
    created_resources db' = created_resources fixture_db.
Proof.
  apply (sync_requires_feed_url fixture_env 2
           (mkFileImporter "unset" None 1) fixture_db).
  - by vm_compute.
  - by left.
Defined.

(** C10.  When [Synchronizer.run] raises, [sync] raises the same exception
    and leaves the database as it was but for the repository, whose
    [last_version] is one more than before: the new version and its
    tracking record are gone, every other row is as it was, and the version
    number stays consumed. *)
Theorem failed_sync_consumes_version_number (env : Collaborators)
    (importer_pk : Pk) (importer : FileImporter) (repository : Repository)
    (db : DB) (e : Exception) :
  importers db !! importer_pk = Some importer →
  truthy (feed_url importer) = true →
  repositories db !! importer_repository importer = Some repository →
  run env (Synchronizer_init importer (new_pk (versions db))
             (base_version (importer_repository importer) db))
    = Raise e →
  ∃ db',
    sync env importer_pk db = (Raise e, db') ∧
    db' = set_repositories
            (<[importer_repository importer :=
                 mkRepository (repository_name repository)
                              (last_version repository + 1)]>)
            db ∧
    versions db' = versions db ∧
    created_resources db' = created_resources db ∧
    last_version <$> repositories db' !! importer_repository importer
      = Some (last_version repository + 1).
Proof.
  intros Himp Hfeed Hrepo Hrun.
  eexists. split.
  - rewrite (sync_by_run env importer_pk importer repository db Himp Hfeed
               Hrepo), Hrun, failed_sync_db. reflexivity.
  - split; [reflexivity|]. split; [reflexivity|]. split; [reflexivity|].
    simpl. by rewrite lookup_insert_eq.
Qed.

Lemma failed_sync_consumes_version_number_witness :
  ∃ db',
    sync fixture_env 1 fixture_db = (Raise (OtherError "apply"), db') ∧
    db' = set_repositories
            (<[1%positive := mkRepository "files" (1 + 1)]>) fixture_db ∧
    versions db' = versions fixture_db ∧
    created_resources db' = created_resources fixture_db ∧
    last_version <$> repositories db' !! 1%positive = Some (1 + 1).
Proof.
  apply (failed_sync_consumes_version_number fixture_env 1 fixture_importer
           (mkRepository "files" 1) fixture_db (OtherError "apply")).
  - by vm_compute.
  - by vm_compute.
  - by vm_compute.
  - by vm_compute.
Defined.

(** Past its three lookups [publish] returns normally, whatever happens in
    the body of its [try]. *)
Lemma publish_returns (env : Collaborators) (publisher_pk repository_pk : Pk)
    (publisher : FilePublisher) (repository : Repository)
    (version : Pk * RepositoryVersion) (db : DB) :
  publishers db !! publisher_pk = Some publisher →
  repositories db !! repository_pk = Some repository →
  map_fold (newer repository_pk) None (versions db) = Some version →
  ∃ db', publish env publisher_pk repository_pk db = (Ok (), db').
Proof.
  intros Hpub Hrepo Hlatest.
  unfold publish, bindT at 1, objects_get at 1. rewrite Hpub.
  unfold bindT at 1, objects_get at 1. rewrite Hrepo.
  unfold bindT at 1, latest_complete. rewrite Hlatest.
  unfold atomic, bindT at 1. cbn [save_new].
  unfold bindT at 1. cbn [save_new].
  unfold try_except.
  match goal with
  | |- context [match ?body ?db1 with _ => _ end] =>
      destruct (body db1) as [[[]|e] db2]
  end.
  - eexists. reflexivity.
  - eexists. reflexivity.
Qed.

(** C3, on [publish].  In the fixture the second content unit has no
    artifact and no remote artifact, so [_publish] raises in the body of the
    [try] after the publication, its tracking record and one published
    artifact have been saved.  [publish] deletes them and then returns
    normally: the exception does not reach the caller.  [sync], on the same
    database, raises what its synchronizer raised. *)
Theorem publish_swallows_exception :
  (_publish fixture_env 1 1 1 fixture_publishing).1
    = Raise (DoesNotExist "RemoteArtifact") ∧
  size (published_artifacts
          (_publish fixture_env 1 1 1 fixture_publishing).2) = 1%nat ∧
  publish fixture_env 1 1 fixture_db = (Ok (), fixture_db) ∧
  (sync fixture_env 1 fixture_db).1 = Raise (OtherError "apply").
Proof.
  split; [by vm_compute|]. split; [by vm_compute|].
  split; [by vm_compute|]. by vm_compute.
Qed.

(** ** Further properties of the synchronizer *)

(** X1.  On a new synchronizer [_fetch_inventory] collects exactly the
    natural keys of the rows of the old version (none without one): as many
    keys as rows when the rows have distinct keys, and a second call adds
    nothing. *)
Theorem fetch_inventory_collects (env : Collaborators)
    (importer : FileImporter) (new_version : Pk) (old_version : option Pk) :
  let rows := from_option (content env) [] old_version in
  let self := _fetch_inventory env
                (Synchronizer_init importer new_version old_version) in
  (∀ k, k ∈ _inventory_keys self ↔ ∃ c, c ∈ rows ∧ Key_of_content c = k) ∧
  (NoDup (Key_of_content <$> rows) →
   size (_inventory_keys self) = length rows) ∧
  _inventory_keys (_fetch_inventory env self) = _inventory_keys self.
Proof.
  intros rows self.
  assert (Hkeys : _inventory_keys self = inventory_of rows).
  { unfold self. rewrite fetch_inventory_keys. simpl.
    by rewrite (left_id_L ∅ (∪)). }
  split; [|split].
  - intros k. rewrite Hkeys. apply elem_of_inventory_of.
  - intros Hnd. rewrite Hkeys. unfold inventory_of.
    by rewrite size_list_to_set, length_fmap.
  - rewrite fetch_inventory_keys.
    destruct (fetch_inventory_frame env
                (Synchronizer_init importer new_version old_version))
      as (_ & _ & Hold & _).
    fold self in Hold. rewrite Hold, Hkeys. simpl. fold rows.
    apply (idemp_L (∪)).
Qed.

Lemma run_changeset_init_ok (env : Collaborators) (importer : FileImporter)
    (new_version : Pk) (old_version : option Pk) (p : string) :
  downloader_fetch env importer (feed_url importer) = Ok p →
  ∃ cs self',
    run_changeset env (Synchronizer_init importer new_version old_version)
      = Ok (cs, self').
Proof.
  intros Hp.
  destruct (_fetch_manifest env
              (Synchronizer_init importer new_version old_version))
    as [fetched|e] eqn:Hfetch.
  2: { unfold _fetch_manifest in Hfetch. simpl in Hfetch.
       rewrite Hp in Hfetch. discriminate. }
  pose proof (fetch_manifest_ok _ _ _ Hfetch) as (p' & _ & Hm & _).
  destruct (fetch_inventory_frame env fetched) as (Hm' & _).
  destruct (find_delta_ok true (_fetch_inventory env fetched) _
              (eq_trans Hm' Hm)) as (self' & Hdelta & _).
  destruct (run_delta env importer new_version old_version fetched self'
              Hfetch Hdelta)
    as (q & _ & Hms & _ & Hold & _ & Hrem).
  assert (∃ ids, _build_removals env self' = Ok ids) as [ids Hids].
  { destruct old_version as [v|].
    - destruct (build_removals_ok env self' v Hold) as (ids & Hids & _).
      by exists ids.
    - exists []. unfold _build_removals.
      simpl in Hrem. unfold inventory_of in Hrem. simpl in Hrem.
      rewrite empty_difference_L in Hrem. by rewrite Hrem, elements_empty. }
  eexists _, self'.
  unfold run_changeset. rewrite Hfetch. cbn [bindR].
  rewrite Hdelta. cbn [bindR].
  rewrite (build_additions_ok env self' _ Hms). cbn [bindR].
  rewrite Hids. cbn [bindR]. reflexivity.
Qed.

(** X2.  [run] on a new synchronizer raises what the download raised.
    When the download succeeds, on a manifest that reads as a sequence of
    entries, [run] gets as far as [apply_and_drain] whether or not there is
    an old version (on a first sync nothing is to be removed, and the
    missing old version is not looked at), and it returns or raises as
    [apply_and_drain] does on the change set it built. *)
Theorem run_reaches_apply_and_drain (env : Collaborators)
    (importer : FileImporter) (new_version : Pk) (old_version : option Pk) :
  let self := Synchronizer_init importer new_version old_version in
  (∀ e, downloader_fetch env importer (feed_url importer) = Raise e →
        run env self = Raise e) ∧
  (∀ p, downloader_fetch env importer (feed_url importer) = Ok p →
        ∃ cs self',
          run_changeset env self = Ok (cs, self') ∧
          run env self
            = match apply_and_drain env cs with
              | Ok _ => Ok self'
              | Raise e => Raise e
              end).
Proof.
  intros self. split.
  - intros e He. unfold run, run_changeset, _fetch_manifest, self. simpl.
    by rewrite He.
  - intros p Hp.
    destruct (run_changeset_init_ok env importer new_version old_version p
                Hp) as (cs & self' & Hcs).
    exists cs, self'. split; [exact Hcs|].
    unfold run. fold self. unfold self. rewrite Hcs. reflexivity.
Qed.

Lemma length_concat_singletons {A B} (F : A → list B) (l : list A) :
  (∀ x, x ∈ l → length (F x) = 1%nat) →
  length (concat (F <$> l)) = length l.
Proof.
  induction l as [|a l IH]; intros Hone; [reflexivity|].
  rewrite fmap_cons. cbn [concat]. rewrite length_app, IH.
  - rewrite (Hone a) by apply list_elem_of_here. reflexivity.
  - intros x Hx. by apply Hone, list_elem_of_further.
Qed.

Lemma BatchIterator_cons {A} (x : A) (l : list A) :
  ∃ batch rest, BatchIterator (x :: l) = batch :: rest.
Proof.
  unfold BatchIterator. cbn [length batches].
  destruct (take 1000 (x :: l)) as [|y items] eqn:Htake;
    [discriminate|]. by eexists _, _.
Qed.

Lemma build_removals_empty (env : Collaborators) (self : Synchronizer) :
  _keys_to_remove self = ∅ → _build_removals env self = Ok [].
Proof.
  intros Hrem. unfold _build_removals. by rewrite Hrem, elements_empty.
Qed.

(** X3.  [_build_removals] with nothing to remove yields nothing and does
    not look at the old version, which may be missing; without an old
    version and with something to remove it raises [AttributeError]. *)
Theorem build_removals_without_old_version (env : Collaborators)
    (self : Synchronizer) :
  (_keys_to_remove self = ∅ → _build_removals env self = Ok []) ∧
  (_old_version self = None → _keys_to_remove self ≠ ∅ →
   ∃ msg, _build_removals env self = Raise (AttributeError msg)).
Proof.
  split; [apply build_removals_empty|].
  intros Hold Hne. unfold _build_removals.
  destruct (elements (_keys_to_remove self)) as [|k ks] eqn:Hel.
  - destruct Hne. apply leibniz_equiv. by apply elements_empty_inv.
  - destruct (BatchIterator_cons k ks) as (batch & rest & ->).
    simpl. unfold removals_of_batch at 1. rewrite Hold.
    by eexists.
Qed.

(** X4.  With an old version, what [_build_removals] yields is, up to
    order, the identifiers of the rows of the old version whose key is in
    [_keys_to_remove], each row once; so no identifier is yielded twice
    when the rows have distinct identifiers. *)
Theorem build_removals_rows (env : Collaborators) (self : Synchronizer)
    (old_version : Pk) :
  _old_version self = Some old_version →
  ∃ identifiers,
    _build_removals env self = Ok identifiers ∧
    identifiers
      ≡ₚ content_id
           <$> filter (λ c, Key_of_content c ∈ _keys_to_remove self)
                      (content env old_version) ∧
    (NoDup (content_id <$> content env old_version) → NoDup identifiers).
Proof.
  intros Hold.
  destruct (build_removals_ok env self old_version Hold)
    as (identifiers & Hrun & Hperm).
  assert (Hrows : identifiers
            ≡ₚ content_id
                 <$> filter (λ c, Key_of_content c ∈ _keys_to_remove self)
                            (content env old_version)).
  { rewrite Hperm. unfold yielded_for, found.
    rewrite <- fmap_concat_fmap.
    rewrite <- (filter_batch_per_key (content env old_version)
                  (elements (_keys_to_remove self)))
      by apply NoDup_elements.
    erewrite list_filter_iff; [reflexivity|].
    intros c. simpl. by rewrite elem_of_elements. }
  exists identifiers. split; [exact Hrun|]. split; [exact Hrows|].
  intros Hnd. rewrite Hrows. by apply NoDup_fmap_filter.
Qed.

Lemma build_removals_rows_witness :
  ∃ identifiers,
    _build_removals fixture_env fixture_delta = Ok identifiers ∧
    identifiers
      ≡ₚ content_id
           <$> filter (λ c, Key_of_content c ∈ _keys_to_remove fixture_delta)
                      (content fixture_env 1) ∧
    (NoDup (content_id <$> content fixture_env 1) → NoDup identifiers).
Proof.
  apply (build_removals_rows fixture_env fixture_delta 1). reflexivity.
Defined.

Lemma build_removals_length (env : Collaborators) (self : Synchronizer)
    (identifiers : list Pk) :
  let rows := from_option (content env) [] (_old_version self) in
  _build_removals env self = Ok identifiers →
  NoDup (Key_of_content <$> rows) →
  _keys_to_remove self ⊆ inventory_of rows →
  length identifiers = size (_keys_to_remove self).
Proof.
  intros rows Hrun Hnd Hsub.
  destruct (_old_version self) as [old_version|] eqn:Hold; simpl in rows.
  - destruct (build_removals_ok env self old_version Hold)
      as (ids & Hids & Hperm).
    rewrite Hrun in Hids. injection Hids as <-.
    rewrite Hperm, length_concat_singletons; [reflexivity|].
    intros k Hk. apply elem_of_elements in Hk.
    apply Hsub, elem_of_inventory_of in Hk as (c & Hc & <-).
    unfold yielded_for. fold rows. by rewrite found_unique.
  - assert (Hempty : _keys_to_remove self = ∅).
    { apply set_eq. intros k. split; [|by intros H%not_elem_of_empty].
      intros Hk. apply Hsub, elem_of_inventory_of in Hk as (c & Hc & _).
      by apply elem_of_nil in Hc. }
    rewrite (build_removals_empty env self Hempty) in Hrun.
    injection Hrun as <-. by rewrite Hempty, size_empty.
Qed.

(** X5.  When the rows of the old version are pairwise distinct by natural
    key, the removals handed to the change set by [run] yield as many
    identifiers as the length declared for them, the size of
    [_keys_to_remove]; on a first sync both are zero. *)
Theorem removals_length_as_declared (env : Collaborators)
    (importer : FileImporter) (new_version : Pk) (old_version : option Pk)
    (cs : ChangeSet) (self' : Synchronizer) :
  run_changeset env (Synchronizer_init importer new_version old_version)
    = Ok (cs, self') →
  NoDup (Key_of_content <$> from_option (content env) [] old_version) →
  length (iterable (removals cs)) = declared_length (removals cs) ∧
  declared_length (removals cs) = size (_keys_to_remove self') ∧
  (old_version = None → iterable (removals cs) = []).
Proof.
  intros Hrun Hnd.
  apply run_changeset_ok in Hrun
    as (fetched & Hfetch & Hdelta & _ & Hrems & _ & Hlen & _).
  destruct (run_delta env importer new_version old_version fetched self'
              Hfetch Hdelta) as (p & _ & _ & _ & Hold & _ & Hrem).
  assert (Hall : length (iterable (removals cs))
                 = size (_keys_to_remove self')).
  { apply (build_removals_length env self' _ Hrems).
    - by rewrite Hold.
    - rewrite Hold, Hrem. intros k Hk.
      by apply elem_of_difference in Hk as [Hk _]. }
  split; [by rewrite Hlen|]. split; [exact Hlen|].
  intros ->. apply nil_length_inv. rewrite Hall, Hrem. simpl.
  unfold inventory_of. simpl. by rewrite empty_difference_L, size_empty.
Qed.

Lemma removals_length_as_declared_witness :
  length (iterable (removals fixture_changeset))
    = declared_length (removals fixture_changeset) ∧
  declared_length (removals fixture_changeset)
    = size (_keys_to_remove fixture_delta) ∧
  (Some 1%positive = None → iterable (removals fixture_changeset) = []).
Proof.
  apply (removals_length_as_declared fixture_env fixture_importer 2
           (Some 1%positive) fixture_changeset fixture_delta).
  - by vm_compute.
  - apply (bool_decide_unpack _). by vm_compute.
Defined.

(** X6.  [run] never adds what is there and never removes what is still
    listed: no descriptor it yields for addition has a key of the old
    version's content, and every identifier it yields for removal is that of
    a row of the old version whose key no manifest entry has. *)
Theorem run_changes_only_the_difference (env : Collaborators)
    (importer : FileImporter) (new_version : Pk) (old_version : option Pk)
    (cs : ChangeSet) (self' : Synchronizer) (manifest : Manifest) :
  let rows := from_option (content env) [] old_version in
  run_changeset env (Synchronizer_init importer new_version old_version)
    = Ok (cs, self') →
  _manifest self' = Some manifest →
  Forall (λ d, ¬ ∃ c, c ∈ rows ∧ Key_of_content c = Key_of_pending d)
         (iterable (additions cs)) ∧
  Forall (λ i, ∃ c, c ∈ rows ∧ content_id c = i
                    ∧ ¬ ∃ e, e ∈ read manifest
                             ∧ Key_of_entry e = Key_of_content c)
         (iterable (removals cs)).
Proof.
  intros rows Hrun Hm.
  apply run_changeset_ok in Hrun
    as (fetched & Hfetch & Hdelta & Hadds & Hrems & _).
  destruct (run_delta env importer new_version old_version fetched self'
              Hfetch Hdelta) as (p & _ & Hm' & _ & Hold & Hadd & Hrem).
  fold rows in Hadd, Hrem.
  rewrite Hm in Hm'. injection Hm' as ->. simpl.
  split.
  - rewrite (build_additions_ok env self' _ Hm) in Hadds.
    injection Hadds as <-.
    apply Forall_fmap, Forall_forall. intros e He. simpl.
    apply list_elem_of_filter in He as [He _].
    rewrite Hadd in He. apply elem_of_difference in He as [_ He].
    intros Hc. apply He. by apply elem_of_inventory_of.
  - apply Forall_forall. intros i Hi.
    apply (build_removals_elem env self' _ Hrems) in Hi
      as (c & Hc & Hid & Hk).
    rewrite Hold in Hc. exists c. split; [exact Hc|]. split; [exact Hid|].
    rewrite Hrem in Hk. apply elem_of_difference in Hk as [_ Hk].
    intros He. apply Hk. by apply elem_of_remote_keys.
Qed.

Lemma run_changes_only_the_difference_witness :
  Forall (λ d, ¬ ∃ c, c ∈ from_option (content fixture_env) []
                            (Some 1%positive)
                      ∧ Key_of_content c = Key_of_pending d)
         (iterable (additions fixture_changeset)) ∧
  Forall (λ i, ∃ c, c ∈ from_option (content fixture_env) []
                          (Some 1%positive)
                    ∧ content_id c = i
                    ∧ ¬ ∃ e, e ∈ read (mkManifest "/tmp/PULP_MANIFEST"
                                          fixture_entries)
                             ∧ Key_of_entry e = Key_of_content c)
         (iterable (removals fixture_changeset)).
Proof.
  apply (run_changes_only_the_difference fixture_env fixture_importer 2
           (Some 1%positive) fixture_changeset fixture_delta
           (mkManifest "/tmp/PULP_MANIFEST" fixture_entries)).
  - by vm_compute.
  - reflexivity.
Defined.

(** X7.  What [_find_delta] amounts to on the keys.  Under [mirror] the
    inventory without [_keys_to_remove] and with [_keys_to_add] is the key
    set of the manifest.  Without [mirror] nothing is marked for removal
    that was not already, and the inventory with [_keys_to_add] is the
    inventory together with the keys of the manifest. *)
Theorem find_delta_applied (mirror : bool) (self : Synchronizer)
    (manifest : Manifest) :
  _manifest self = Some manifest →
  ∃ self',
    _find_delta mirror self = Ok self' ∧
    let remote_keys : gset Key :=
      list_to_set (Key_of_entry <$> read manifest) in
    if mirror
    then (_inventory_keys self ∖ _keys_to_remove self') ∪ _keys_to_add self'
         = remote_keys
    else _keys_to_remove self' = _keys_to_remove self ∧
         _inventory_keys self ∪ _keys_to_add self'
         = _inventory_keys self ∪ remote_keys.
Proof.
  intros Hm.
  destruct (find_delta_ok mirror self manifest Hm)
    as (self' & Hrun & _ & _ & _ & _ & Hadd & Hrem).
  exists self'. split; [exact Hrun|]. simpl. rewrite Hadd, Hrem.
  destruct mirror.
  - apply set_eq. intros k.
    rewrite elem_of_union, !elem_of_difference.
    destruct (decide (k ∈ _inventory_keys self)),
      (decide (k ∈ (list_to_set (Key_of_entry <$> read manifest)
                    : gset Key))); tauto.
  - split; [reflexivity|]. apply set_eq. intros k.
    rewrite !elem_of_union, elem_of_difference.
    destruct (decide (k ∈ _inventory_keys self)); tauto.
Qed.

Lemma find_delta_applied_witness :
  ∃ self',
    _find_delta true fixture_synchronizer = Ok self' ∧
    (_inventory_keys fixture_synchronizer ∖ _keys_to_remove self')
      ∪ _keys_to_add self'
    = list_to_set (Key_of_entry <$> fixture_entries).
Proof.
  apply (find_delta_applied true fixture_synchronizer
           (mkManifest "/tmp/PULP_MANIFEST" fixture_entries)).
  reflexivity.
Defined.

(** X8.  An empty manifest, mirrored, marks the whole inventory for removal
    and nothing for addition. *)
Theorem find_delta_empty_manifest (self : Synchronizer)
    (manifest : Manifest) :
  _manifest self = Some manifest →
  read manifest = [] →
  ∃ self',
    _find_delta true self = Ok self' ∧
    _keys_to_add self' = ∅ ∧
    _keys_to_remove self' = _inventory_keys self.
Proof.
  intros Hm Hread.
  destruct (find_delta_ok true self manifest Hm)
    as (self' & Hrun & _ & _ & _ & _ & Hadd & Hrem).
  exists self'. split; [exact Hrun|].
  rewrite Hadd, Hrem, Hread. simpl.
  by rewrite empty_difference_L, difference_empty_L.
Qed.

Lemma find_delta_empty_manifest_witness :
  ∃ self',
    _find_delta true fixture_empty_manifest = Ok self' ∧
    _keys_to_add self' = ∅ ∧
    _keys_to_remove self' = _inventory_keys fixture_empty_manifest.
Proof.
  apply (find_delta_empty_manifest fixture_empty_manifest
           (mkManifest "/tmp/PULP_MANIFEST" []));
    reflexivity.
Defined.

(** X9.  An entry whose path starts with a slash is fetched from that path:
    [os.path.join] drops the directory of the feed, and the descriptor's
    URL is the feed URL with the entry's path as its whole path. *)
Theorem build_additions_absolute_entry_path (env : Collaborators)
    (self : Synchronizer) (manifest : Manifest) (entry : Entry) :
  _manifest self = Some manifest →
  entry ∈ read manifest →
  Key_of_entry entry ∈ _keys_to_add self →
  startswith_sep (entry_path entry) = true →
  ∃ descriptors d a,
    _build_additions env self = Ok descriptors ∧
    d ∈ descriptors ∧
    Key_of_pending d = Key_of_entry entry ∧
    pc_artifacts d = [a] ∧
    pa_url a
    = urlunparse env
        (_replace_path (urlparse env (feed_url (_importer self)))
                       (entry_path entry)).
Proof.
  intros Hm Hin Hkey Habs.
  eexists _, (pending_content env _ _ entry), _.
  split; [by apply build_additions_ok|].
  split.
  { apply list_elem_of_fmap. exists entry. split; [reflexivity|].
    unfold surviving. by apply list_elem_of_filter. }
  split; [reflexivity|]. split; [reflexivity|].
  simpl. unfold join. by rewrite Habs.
Qed.

Lemma build_additions_absolute_entry_path_witness :
  ∃ descriptors d a,
    _build_additions fixture_env fixture_absolute = Ok descriptors ∧
    d ∈ descriptors ∧
    Key_of_pending d = Key_of_entry (mkEntry "/etc/x" "d9" 1) ∧
    pc_artifacts d = [a] ∧
    pa_url a
    = urlunparse fixture_env
        (_replace_path
           (urlparse fixture_env (feed_url (_importer fixture_absolute)))
           (entry_path (mkEntry "/etc/x" "d9" 1))).
Proof.
  apply (build_additions_absolute_entry_path fixture_env fixture_absolute
           (mkManifest "/tmp/PULP_MANIFEST" [mkEntry "/etc/x" "d9" 1])
           (mkEntry "/etc/x" "d9" 1)).
  - reflexivity.
  - apply list_elem_of_here.
  - by vm_compute.
  - reflexivity.
Defined.

(** ** Further properties of the tasks *)

(** [latest()] over the complete versions of a repository. *)
Lemma latest_complete_spec (repository : Pk)
    (table : gmap Pk RepositoryVersion) :
  match map_fold (newer repository) None table with
  | None =>
      ∀ pk v, table !! pk = Some v →
              version_repository v = repository → complete v = false
  | Some (pk, v) =>
      table !! pk = Some v ∧
      version_repository v = repository ∧
      complete v = true ∧
      ∀ pk' v', table !! pk' = Some v' →
                version_repository v' = repository →
                complete v' = true →
                number v' ≤ number v
  end.
Proof.
  apply (map_fold_weak_ind
           (λ r m,
              match r with
              | None =>
                  ∀ pk v, m !! pk = Some v →
                          version_repository v = repository →
                          complete v = false
              | Some (pk, v) =>
                  m !! pk = Some v ∧
                  version_repository v = repository ∧
                  complete v = true ∧
                  ∀ pk' v', m !! pk' = Some v' →
                            version_repository v' = repository →
                            complete v' = true →
                            number v' ≤ number v
              end)).
  - intros pk v H. by rewrite lookup_empty in H.
  - intros i x m r Hi IH. unfold newer.
    destruct (bool_decide (version_repository x = repository)) eqn:Hrep;
      [destruct (complete x) eqn:Hcomplete|]; simpl.
    + apply bool_decide_eq_true in Hrep.
      destruct r as [[bpk b]|].
      * destruct IH as (Hb & Hbrep & Hbc & Hmax).
        destruct (number b <? number x) eqn:Hlt.
        -- apply Z.ltb_lt in Hlt.
           split; [apply lookup_insert_eq|]. split; [exact Hrep|].
           split; [exact Hcomplete|].
           intros pk' v' Hv' Hr' Hc'.
           rewrite lookup_insert in Hv'. case_decide.
           ++ injection Hv' as <-. lia.
           ++ pose proof (Hmax pk' v' Hv' Hr' Hc'). lia.
        -- apply Z.ltb_ge in Hlt.
           split.
           { rewrite lookup_insert_ne; [exact Hb|].
             intros <-. by rewrite Hi in Hb. }
           split; [exact Hbrep|]. split; [exact Hbc|].
           intros pk' v' Hv' Hr' Hc'.
           rewrite lookup_insert in Hv'. case_decide.
           ++ by injection Hv' as <-.
           ++ by apply (Hmax pk' v').
      * split; [apply lookup_insert_eq|]. split; [exact Hrep|].
        split; [exact Hcomplete|].
        intros pk' v' Hv' Hr' Hc'.
        rewrite lookup_insert in Hv'. case_decide.
        -- injection Hv' as <-. lia.
        -- by rewrite (IH pk' v' Hv' Hr') in Hc'.
    + apply bool_decide_eq_true in Hrep.
      destruct r as [[bpk b]|].
      * destruct IH as (Hb & Hbrep & Hbc & Hmax).
        split.
        { rewrite lookup_insert_ne; [exact Hb|].
          intros <-. by rewrite Hi in Hb. }
        split; [exact Hbrep|]. split; [exact Hbc|].
        intros pk' v' Hv' Hr' Hc'.
        rewrite lookup_insert in Hv'. case_decide.
        -- injection Hv' as <-. by rewrite Hcomplete in Hc'.
        -- by apply (Hmax pk' v').
      * intros pk' v' Hv' Hr'.
        rewrite lookup_insert in Hv'. case_decide.
        -- by injection Hv' as <-.
        -- by apply (IH pk' v').
    + apply bool_decide_eq_false in Hrep.
      destruct r as [[bpk b]|].
      * destruct IH as (Hb & Hbrep & Hbc & Hmax).
        split.
        { rewrite lookup_insert_ne; [exact Hb|].
          intros <-. by rewrite Hi in Hb. }
        split; [exact Hbrep|]. split; [exact Hbc|].
        intros pk' v' Hv' Hr' Hc'.
        rewrite lookup_insert in Hv'. case_decide.
        -- injection Hv' as <-. by destruct Hrep.
        -- by apply (Hmax pk' v').
      * intros pk' v' Hv' Hr'.
        rewrite lookup_insert in Hv'. case_decide.
        -- injection Hv' as <-. by destruct Hrep.
        -- by apply (IH pk' v').
Qed.

(** X10.  When [Synchronizer.run] returns, [sync] returns, and the database
    differs from the one it found in three rows: the new version, under a
    key that was free, numbered [last_version + 1] and complete; the
    repository, whose [last_version] is that number; and a tracking record
    for the new version. *)
Theorem successful_sync_completes_version (env : Collaborators)
    (importer_pk : Pk) (importer : FileImporter) (repository : Repository)
    (db : DB) (done : Synchronizer) :
  importers db !! importer_pk = Some importer →
  truthy (feed_url importer) = true →
  repositories db !! importer_repository importer = Some repository →
  run env (Synchronizer_init importer (new_pk (versions db))
             (base_version (importer_repository importer) db))
    = Ok done →
  ∃ db',
    sync env importer_pk db = (Ok (), db') ∧
    versions db !! new_pk (versions db) = None ∧
    versions db'
      = <[new_pk (versions db) :=
            mkRepositoryVersion (importer_repository importer)
                                (last_version repository + 1) true]>
          (versions db) ∧
    repositories db'
      = <[importer_repository importer :=
            mkRepository (repository_name repository)
                         (last_version repository + 1)]>
          (repositories db) ∧
    created_resources db'
      = <[new_pk (created_resources db) :=
            mkCreatedResource (VersionObject (new_pk (versions db)))]>
          (created_resources db) ∧
    importers db' = importers db ∧
    publishers db' = publishers db ∧
    publications db' = publications db ∧
    published_artifacts db' = published_artifacts db ∧
    published_metadata db' = published_metadata db.
Proof.
  intros Himp Hfeed Hrepo Hrun.
  eexists. split.
  - rewrite (sync_by_run env importer_pk importer repository db Himp Hfeed
               Hrepo), Hrun. reflexivity.
  - split; [apply new_pk_fresh|]. simpl.
    split; [apply insert_insert_eq|]. repeat (split; [reflexivity|]).
    reflexivity.
Qed.

Lemma successful_sync_completes_version_witness :
  ∃ db',
    sync fixture_env_ok 1 fixture_db = (Ok (), db') ∧
    versions fixture_db !! new_pk (versions fixture_db) = None ∧
    versions db'
      = <[new_pk (versions fixture_db) :=
            mkRepositoryVersion (importer_repository fixture_importer)
              (last_version (mkRepository "files" 1) + 1) true]>
          (versions fixture_db) ∧
    repositories db'
      = <[importer_repository fixture_importer :=
            mkRepository (repository_name (mkRepository "files" 1))
              (last_version (mkRepository "files" 1) + 1)]>
          (repositories fixture_db) ∧
    created_resources db'
      = <[new_pk (created_resources fixture_db) :=
            mkCreatedResource
              (VersionObject (new_pk (versions fixture_db)))]>
          (created_resources fixture_db) ∧
    importers db' = importers fixture_db ∧
    publishers db' = publishers fixture_db ∧
    publications db' = publications fixture_db ∧
    published_artifacts db' = published_artifacts fixture_db ∧
    published_metadata db' = published_metadata fixture_db.
Proof.
  apply (successful_sync_completes_version fixture_env_ok 1 fixture_importer
           (mkRepository "files" 1) fixture_db fixture_delta).
  - by vm_compute.
  - by vm_compute.
  - by vm_compute.
  - by vm_compute.
Defined.

(** X11.  The synchronizer [sync] runs has as its old version the complete
    version of the importer's repository with the greatest number, and none
    when the repository has no complete version; an incomplete version is
    never the base.  [sync] returns or raises as that run does. *)
Theorem sync_runs_on_latest_complete (env : Collaborators) (importer_pk : Pk)
    (importer : FileImporter) (repository : Repository) (db : DB) :
  importers db !! importer_pk = Some importer →
  truthy (feed_url importer) = true →
  repositories db !! importer_repository importer = Some repository →
  ∃ base,
    (sync env importer_pk db).1
      = match run env (Synchronizer_init importer (new_pk (versions db))
                         base) with
        | Ok _ => Ok ()
        | Raise e => Raise e
        end ∧
    match base with
    | None =>
        ∀ pk v, versions db !! pk = Some v →
                version_repository v = importer_repository importer →
                complete v = false
    | Some pk =>
        ∃ v, versions db !! pk = Some v ∧
             version_repository v = importer_repository importer ∧
             complete v = true ∧
             ∀ pk' v', versions db !! pk' = Some v' →
                       version_repository v' = importer_repository importer →
                       complete v' = true →
                       number v' ≤ number v
    end.
Proof.
  intros Himp Hfeed Hrepo.
  exists (base_version (importer_repository importer) db). split.
  - rewrite (sync_by_run env importer_pk importer repository db Himp Hfeed
               Hrepo).
    by destruct (run env _).
  - unfold base_version.
    pose proof (latest_complete_spec (importer_repository importer)
                  (versions db)) as Hspec.
    destruct (map_fold (newer (importer_repository importer)) None
                (versions db)) as [[pk v]|]; simpl.
    + by exists v.
    + exact Hspec.
Qed.

Lemma sync_runs_on_latest_complete_witness :
  ∃ base,
    (sync fixture_env 1 fixture_db).1
      = match run fixture_env
                (Synchronizer_init fixture_importer
                   (new_pk (versions fixture_db)) base) with
        | Ok _ => Ok ()
        | Raise e => Raise e
        end ∧
    match base with
    | None =>
        ∀ pk v, versions fixture_db !! pk = Some v →
                version_repository v = importer_repository fixture_importer →
                complete v = false
    | Some pk =>
        ∃ v, versions fixture_db !! pk = Some v ∧
             version_repository v = importer_repository fixture_importer ∧
             complete v = true ∧
             ∀ pk' v', versions fixture_db !! pk' = Some v' →
                       version_repository v'
                         = importer_repository fixture_importer →
                       complete v' = true →
                       number v' ≤ number v
    end.
Proof.
  apply (sync_runs_on_latest_complete fixture_env 1 fixture_importer
           (mkRepository "files" 1) fixture_db).
  - by vm_compute.
  - by vm_compute.
  - by vm_compute.
Defined.

Lemma fixture_db_bounded : versions_bounded fixture_db.
Proof.
  intros pk v repository Hv Hr. unfold fixture_db in Hv, Hr. simpl in Hv, Hr.
  apply lookup_singleton_Some in Hv as [_ <-]. simpl in Hr.
  apply lookup_singleton_Some in Hr as [_ <-]. simpl. lia.
Qed.

Lemma bounded_after_increment (db db' : DB) (key : Pk)
    (repository : Repository) (n : Z) :
  versions_bounded db →
  repositories db !! key = Some repository →
  last_version repository ≤ n →
  repositories db'
    = <[key := mkRepository (repository_name repository) n]>
        (repositories db) →
  (∀ pk v, versions db' !! pk = Some v →
           versions db !! pk = Some v
           ∨ version_repository v = key ∧ number v ≤ n) →
  versions_bounded db'.
Proof.
  intros Hb Hrepo Hn Hrepos Htable pk v r Hv Hr.
  rewrite Hrepos, lookup_insert in Hr.
  destruct (Htable pk v Hv) as [Hold|[Hkey Hnum]].
  - case_decide as Hk.
    + injection Hr as <-. simpl.
      rewrite Hk in Hrepo. pose proof (Hb pk v repository Hold Hrepo).
      lia.
    + by apply (Hb pk v r).
  - rewrite decide_True in Hr by done. injection Hr as <-. exact Hnum.
Qed.

(** X12.  [sync] keeps the versions of every repository numbered within the
    repository's [last_version], whether it returns, raises before creating
    the version, or raises after its synchronizer failed. *)
Theorem sync_keeps_versions_bounded (env : Collaborators) (importer_pk : Pk)
    (db : DB) :
  versions_bounded db →
  versions_bounded (sync env importer_pk db).2.
Proof.
  intros Hb.
  destruct (importers db !! importer_pk) as [importer|] eqn:Himp.
  2: { unfold sync, bindT, objects_get. by rewrite Himp. }
  destruct (truthy (feed_url importer)) eqn:Hfeed.
  2: { unfold sync, bindT, objects_get. by rewrite Himp, Hfeed. }
  destruct (repositories db !! importer_repository importer)
    as [repository|] eqn:Hrepo.
  2: { unfold sync, bindT at 1, objects_get at 1. rewrite Himp, Hfeed.
       cbn [negb]. unfold bindT at 1, objects_get at 1. by rewrite Hrepo. }
  rewrite (sync_by_run env importer_pk importer repository db Himp Hfeed
             Hrepo).
  destruct (run env _) as [done|e]; cbn [snd].
  - apply (bounded_after_increment db _ (importer_repository importer)
             repository (last_version repository + 1) Hb Hrepo);
      [lia|reflexivity|].
    intros pk v Hv. simpl in Hv.
    rewrite insert_insert_eq, lookup_insert in Hv. case_decide.
    + injection Hv as <-. right. simpl. split; [reflexivity|lia].
    + by left.
  - rewrite failed_sync_db.
    apply (bounded_after_increment db _ (importer_repository importer)
             repository (last_version repository + 1) Hb Hrepo);
      [lia|reflexivity|].
    intros pk v Hv. by left.
Qed.

Lemma sync_keeps_versions_bounded_witness :
  versions_bounded (sync fixture_env_ok 1 fixture_db).2.
Proof.
  apply (sync_keeps_versions_bounded fixture_env_ok 1 fixture_db).
  exact fixture_db_bounded.
Defined.

(** X13.  After a [sync] that returned, on a database whose versions were
    numbered within [last_version], the latest complete version of the
    repository is the version that sync created: the next sync of the
    repository is based on it. *)
Theorem next_sync_is_based_on_new_version (env : Collaborators)
    (importer_pk : Pk) (importer : FileImporter) (repository : Repository)
    (db : DB) (done : Synchronizer) :
  versions_bounded db →
  importers db !! importer_pk = Some importer →
  truthy (feed_url importer) = true →
  repositories db !! importer_repository importer = Some repository →
  run env (Synchronizer_init importer (new_pk (versions db))
             (base_version (importer_repository importer) db))
    = Ok done →
  base_version (importer_repository importer) (sync env importer_pk db).2
  = Some (new_pk (versions db)).
Proof.
  intros Hb Himp Hfeed Hrepo Hrun.
  rewrite (sync_by_run env importer_pk importer repository db Himp Hfeed
             Hrepo), Hrun. cbn [snd]. unfold base_version. simpl.
  rewrite insert_insert_eq.
  pose proof (latest_complete_spec (importer_repository importer)
                (<[new_pk (versions db) :=
                     mkRepositoryVersion (importer_repository importer)
                       (last_version repository + 1) true]>
                   (versions db))) as Hspec.
  destruct (map_fold _ _ _) as [[pk v]|]; simpl.
  - destruct Hspec as (Hv & Hrep & _ & Hmax).
    rewrite lookup_insert in Hv. case_decide as Hpk; [by rewrite Hpk|].
    pose proof (Hmax (new_pk (versions db)) _ (lookup_insert_eq _ _ _)
                  eq_refl eq_refl) as Hle. simpl in Hle.
    rewrite <- Hrep in Hrepo. pose proof (Hb pk v repository Hv Hrepo). lia.
  - pose proof (Hspec (new_pk (versions db)) _ (lookup_insert_eq _ _ _)
                  eq_refl). discriminate.
Qed.

Lemma next_sync_is_based_on_new_version_witness :
  base_version (importer_repository fixture_importer)
    (sync fixture_env_ok 1 fixture_db).2
  = Some (new_pk (versions fixture_db)).
Proof.
  apply (next_sync_is_based_on_new_version fixture_env_ok 1 fixture_importer
           (mkRepository "files" 1) fixture_db fixture_delta).
  - exact fixture_db_bounded.
  - by vm_compute.
  - by vm_compute.
  - by vm_compute.
  - by vm_compute.
Defined.

(** *** [publish] *)

Lemma publishes_refl (publication : Pk) (db : DB) :
  publishes publication db db.
Proof. unfold publishes. repeat (split; [reflexivity|]). auto. Qed.

Lemma publishes_trans (publication : Pk) (db1 db2 db3 : DB) :
  publishes publication db1 db2 →
  publishes publication db2 db3 →
  publishes publication db1 db3.
Proof.
  intros (H1 & H2 & H3 & H4 & H5 & H6 & H7 & Hkeep & Hnew)
         (G1 & G2 & G3 & G4 & G5 & G6 & G7 & Gkeep & Gnew).
  unfold publishes.
  rewrite G1, G2, G3, G4, G5, G6, G7.
  repeat (split; [assumption|]). split.
  - intros i x Hx. by apply Gkeep, Hkeep.
  - intros i x Hx. destruct (Gnew i x Hx) as [Hold|Hpub]; [|by right].
    by apply Hnew.
Qed.

Lemma for_each_rel {A B} (R : DB → DB → Prop) (f : A → Task (list B))
    (l : list A) :
  (∀ db, R db db) →
  (∀ db1 db2 db3, R db1 db2 → R db2 db3 → R db1 db3) →
  (∀ x db, R db (f x db).2) →
  ∀ db, R db (for_each f l db).2.
Proof.
  intros Hrefl Htrans Hstep.
  induction l as [|x l IH]; intros db; [apply Hrefl|].
  cbn [for_each]. unfold bindT at 1.
  pose proof (Hstep x db) as Hx.
  destruct (f x db) as [[ys|e] db1]; [|exact Hx].
  unfold bindT at 1. pose proof (IH db1) as Hl.
  destruct (for_each f l db1) as [[zs|e] db2];
    exact (Htrans _ _ _ Hx Hl).
Qed.

Lemma publish_steps (env : Collaborators)
    (publication repository_version repository : Pk) (db : DB) :
  publishes publication db
    (_publish env publication repository_version repository db).2.
Proof.
  unfold _publish.
  apply for_each_rel;
    [apply publishes_refl|apply publishes_trans|].
  intros content1 db1.
  apply for_each_rel;
    [apply publishes_refl|apply publishes_trans|].
  intros content_artifact db2.
  unfold bindT at 1, _find_artifact.
  destruct (ca_artifact content_artifact) as [artifact|]; simpl.
  2: destruct (remote_artifact_get env _ _) as [artifact|e]; simpl;
       [|apply publishes_refl].
  all: unfold publishes; simpl; repeat (split; [reflexivity|]); split.
  all: try (intros i x Hx; rewrite lookup_insert_ne; [exact Hx|];
            intros <-; by rewrite new_pk_fresh in Hx).
  all: intros i x Hx; rewrite lookup_insert in Hx; case_decide;
         [injection Hx as <-; by right|by left].
Qed.

Lemma DB_eq (db db' : DB) :
  importers db = importers db' →
  publishers db = publishers db' →
  repositories db = repositories db' →
  versions db = versions db' →
  created_resources db = created_resources db' →
  publications db = publications db' →
  published_artifacts db = published_artifacts db' →
  published_metadata db = published_metadata db' →
  db = db'.
Proof. destruct db, db'. simpl. by intros -> -> -> -> -> -> -> ->. Qed.

(** [publish] past its lookups, by the outcome of the body of its [try]. *)
Lemma publish_by_body (env : Collaborators) (publisher_pk repository_pk : Pk)
    (publisher : FilePublisher) (repository : Repository)
    (version : Pk * RepositoryVersion) (db : DB) :
  publishers db !! publisher_pk = Some publisher →
  repositories db !! repository_pk = Some repository →
  map_fold (newer repository_pk) None (versions db) = Some version →
  publish env publisher_pk repository_pk db =
    match publish_body env (new_pk (publications db)) version
            (created_by_publish publisher_pk version.1 db) with
    | (Ok _, db2) => (Ok (), db2)
    | (Raise e, db2) =>
        (Ok (),
         set_created_resources (delete (new_pk (created_resources db)))
           (delete_publication (new_pk (publications db)) db2).2)
    end.
Proof.
  intros Hpub Hrepo Hlatest.
  unfold publish, publish_body, created_by_publish.
  unfold bindT at 1, objects_get at 1. rewrite Hpub.
  unfold bindT at 1, objects_get at 1. rewrite Hrepo.
  unfold bindT at 1, latest_complete. rewrite Hlatest.
  unfold atomic, try_except, bindT, save_new, lift, ret, delete_row.
  cbn -[_publish basename new_pk delete_publication].
  match goal with
  | |- context [_publish ?a ?b ?c ?d ?x] =>
      destruct (_publish a b c d x) as [[entries|e] dbp]
  end; [|reflexivity].
  destruct (manifest_write env _ entries) as [[]|e]; [|reflexivity].
  destruct (open_file env _) as [file|e]; reflexivity.
Qed.

Lemma publish_body_outcome (env : Collaborators) (publication : Pk)
    (version : Pk * RepositoryVersion) (db1 : DB) :
  match publish_body env publication version db1 with
  | (Ok _, db2) =>
      ∃ dbp file,
        publishes publication db1 dbp ∧
        db2 = set_published_metadata
                (<[new_pk (published_metadata dbp) :=
                     mkPublishedMetadata "PULP_MANIFEST" publication file]>)
                dbp
  | (Raise _, db2) => publishes publication db1 db2
  end.
Proof.
  unfold publish_body, bindT, lift, ret, save_new.
  pose proof (publish_steps env publication version.1
                (version_repository version.2) db1) as Hsteps.
  destruct (_publish env publication version.1
              (version_repository version.2) db1) as [[entries|e] dbp];
    simpl in Hsteps; [|exact Hsteps].
  destruct (manifest_write env _ entries) as [[]|e]; [|exact Hsteps].
  destruct (open_file env _) as [file|e]; [|exact Hsteps].
  by exists dbp, file.
Qed.

Lemma filter_restores {R} (owner : R → Pk) (publication : Pk)
    (before after : gmap Pk R) :
  (∀ i x, before !! i = Some x → owner x ≠ publication) →
  (∀ i x, before !! i = Some x → after !! i = Some x) →
  (∀ i x, after !! i = Some x →
          before !! i = Some x ∨ owner x = publication) →
  filter (λ kv : Pk * R, owner kv.2 ≠ publication) after = before.
Proof.
  intros Hfree Hkeep Hnew. apply map_eq. intros i. apply option_eq.
  intros x. rewrite map_lookup_filter_Some. simpl. split.
  - intros [Hx Hne]. by destruct (Hnew i x Hx).
  - intros Hx. split; [by apply Hkeep|by apply (Hfree i)].
Qed.

Lemma failed_publish_db (publisher_pk version_pk : Pk) (db dbp : DB) :
  unreferenced (new_pk (publications db)) db →
  publishes (new_pk (publications db))
    (created_by_publish publisher_pk version_pk db) dbp →
  set_created_resources (delete (new_pk (created_resources db)))
    (delete_publication (new_pk (publications db)) dbp).2
  = db.
Proof.
  intros [Hfree_artifacts Hfree_metadata]
         (Himp & Hpublishers & Hrepos & Hvers & Hcr & Hpubs & Hmeta
          & Hkeep & Hnew).
  apply DB_eq; simpl.
  - exact Himp.
  - exact Hpublishers.
  - exact Hrepos.
  - exact Hvers.
  - rewrite Hcr. simpl. apply delete_insert_id, new_pk_fresh.
  - rewrite Hpubs. simpl. apply delete_insert_id, new_pk_fresh.
  - by apply (filter_restores published_publication).
  - rewrite Hmeta. simpl. apply map_filter_id.
    intros i x Hx. simpl. by apply (Hfree_metadata i).
Qed.

(** X14.  [publish] is all or nothing, by what happens in the body of its
    [try].  Past its lookups, on a database where nothing refers to the key
    the publication will get: when [_publish], [manifest.write] or the
    opening of the manifest raises, [publish] returns with the database
    exactly as it found it, the publication, its published artifacts and its
    tracking record gone; when none of them raises, it returns with the
    publication of the latest complete version, its tracking record, what
    [_publish] saved and the published metadata [PULP_MANIFEST] of the
    opened file. *)
Theorem publish_all_or_nothing (env : Collaborators)
    (publisher_pk repository_pk : Pk) (publisher : FilePublisher)
    (repository : Repository) (version : Pk * RepositoryVersion) (db : DB) :
  publishers db !! publisher_pk = Some publisher →
  repositories db !! repository_pk = Some repository →
  latest_complete repository_pk db = (Ok version, db) →
  unreferenced (new_pk (publications db)) db →
  match _publish env (new_pk (publications db)) version.1
          (version_repository version.2)
          (created_by_publish publisher_pk version.1 db) with
  | (Raise _, _) =>
      publish env publisher_pk repository_pk db = (Ok (), db)
  | (Ok entries, dbp) =>
      match manifest_write env "PULP_MANIFEST" entries with
      | Raise _ =>
          publish env publisher_pk repository_pk db = (Ok (), db)
      | Ok _ =>
          match open_file env "PULP_MANIFEST" with
          | Raise _ =>
              publish env publisher_pk repository_pk db = (Ok (), db)
          | Ok file =>
              publish env publisher_pk repository_pk db
              = (Ok (),
                 set_published_metadata
                   (<[new_pk (published_metadata db) :=
                        mkPublishedMetadata "PULP_MANIFEST"
                          (new_pk (publications db)) file]>)
                   dbp) ∧
              publications dbp
              = <[new_pk (publications db) :=
                    mkPublication publisher_pk version.1]>
                  (publications db) ∧
              created_resources dbp
              = <[new_pk (created_resources db) :=
                    mkCreatedResource
                      (PublicationObject (new_pk (publications db)))]>
                  (created_resources db) ∧
              published_metadata dbp = published_metadata db
          end
      end
  end.
Proof.
  intros Hpub Hrepo Hlatest Hfree.
  assert (Hfold : map_fold (newer repository_pk) None (versions db)
                  = Some version).
  { unfold latest_complete in Hlatest.
    destruct (map_fold _ _ _); by inversion Hlatest. }
  rewrite (publish_by_body env publisher_pk repository_pk publisher
             repository version db Hpub Hrepo Hfold).
  unfold publish_body, bindT, lift, ret, save_new.
  pose proof (publish_steps env (new_pk (publications db)) version.1
                (version_repository version.2)
                (created_by_publish publisher_pk version.1 db)) as Hsteps.
  destruct (_publish env (new_pk (publications db)) version.1
              (version_repository version.2)
              (created_by_publish publisher_pk version.1 db))
    as [[entries|e] dbp]; simpl in Hsteps.
  2: { by rewrite (failed_publish_db publisher_pk version.1 db dbp). }
  destruct (manifest_write env "PULP_MANIFEST" entries) as [[]|e].
  2: { by rewrite (failed_publish_db publisher_pk version.1 db dbp). }
  destruct (open_file env "PULP_MANIFEST") as [file|e].
  2: { by rewrite (failed_publish_db publisher_pk version.1 db dbp). }
  destruct Hsteps as (_ & _ & _ & _ & Hcr & Hpubs & Hmeta & _).
  split; [by rewrite Hmeta|]. split; [exact Hpubs|].
  split; [exact Hcr|exact Hmeta].
Qed.

Lemma fixture_db_unreferenced (publication : Pk) :
  unreferenced publication fixture_db.
Proof.
  split; intros i x Hx; unfold fixture_db in Hx; simpl in Hx;
    by rewrite lookup_empty in Hx.
Qed.

Lemma publish_all_or_nothing_witness :
  match _publish fixture_env_ok (new_pk (publications fixture_db))
          (1%positive, mkRepositoryVersion 1 1 true).1
          (version_repository (1%positive, mkRepositoryVersion 1 1 true).2)
          (created_by_publish 1
             (1%positive, mkRepositoryVersion 1 1 true).1 fixture_db) with
  | (Raise _, _) => publish fixture_env_ok 1 1 fixture_db = (Ok (), fixture_db)
  | (Ok entries, dbp) =>
      match manifest_write fixture_env_ok "PULP_MANIFEST" entries with
      | Raise _ =>
          publish fixture_env_ok 1 1 fixture_db = (Ok (), fixture_db)
      | Ok _ =>
          match open_file fixture_env_ok "PULP_MANIFEST" with
          | Raise _ =>
              publish fixture_env_ok 1 1 fixture_db = (Ok (), fixture_db)
          | Ok file =>
              publish fixture_env_ok 1 1 fixture_db
              = (Ok (),
                 set_published_metadata
                   (<[new_pk (published_metadata fixture_db) :=
                        mkPublishedMetadata "PULP_MANIFEST"
                          (new_pk (publications fixture_db)) file]>)
                   dbp) ∧
              publications dbp
              = <[new_pk (publications fixture_db) :=
                    mkPublication 1
                      (1%positive, mkRepositoryVersion 1 1 true).1]>
                  (publications fixture_db) ∧
              created_resources dbp
              = <[new_pk (created_resources fixture_db) :=
                    mkCreatedResource
                      (PublicationObject
                         (new_pk (publications fixture_db)))]>
                  (created_resources fixture_db) ∧
              published_metadata dbp = published_metadata fixture_db
          end
      end
  end.
Proof.
  apply (publish_all_or_nothing fixture_env_ok 1 1 (mkFilePublisher "http")
           (mkRepository "files" 1)
           (1%positive, mkRepositoryVersion 1 1 true) fixture_db).
  - by vm_compute.
  - by vm_compute.
  - by vm_compute.
  - apply fixture_db_unreferenced.
Defined.

Lemma publish_early (env : Collaborators) (publisher_pk repository_pk : Pk)
    (db : DB) :
  (publishers db !! publisher_pk = None →
   publish env publisher_pk repository_pk db
   = (Raise (DoesNotExist "FilePublisher"), db)) ∧
  (∀ publisher,
     publishers db !! publisher_pk = Some publisher →
     repositories db !! repository_pk = None →
     publish env publisher_pk repository_pk db
     = (Raise (DoesNotExist "Repository"), db)) ∧
  (∀ publisher repository,
     publishers db !! publisher_pk = Some publisher →
     repositories db !! repository_pk = Some repository →
     map_fold (newer repository_pk) None (versions db) = None →
     publish env publisher_pk repository_pk db
     = (Raise (DoesNotExist "RepositoryVersion"), db)).
Proof.
  split; [|split].
  - intros Hpub. unfold publish, bindT, objects_get. by rewrite Hpub.
  - intros publisher Hpub Hrepo.
    unfold publish, bindT at 1, objects_get at 1. rewrite Hpub.
    unfold bindT at 1, objects_get at 1. by rewrite Hrepo.
  - intros publisher repository Hpub Hrepo Hnone.
    unfold publish, bindT at 1, objects_get at 1. rewrite Hpub.
    unfold bindT at 1, objects_get at 1. rewrite Hrepo.
    unfold bindT at 1, latest_complete. by rewrite Hnone.
Qed.

Lemma sync_early (env : Collaborators) (importer_pk : Pk) (db : DB) :
  (importers db !! importer_pk = None →
   sync env importer_pk db = (Raise (DoesNotExist "FileImporter"), db)) ∧
  (∀ importer,
     importers db !! importer_pk = Some importer →
     truthy (feed_url importer) = false →
     ∃ msg, sync env importer_pk db = (Raise (ValueError msg), db)) ∧
  (∀ importer,
     importers db !! importer_pk = Some importer →
     truthy (feed_url importer) = true →
     repositories db !! importer_repository importer = None →
     sync env importer_pk db = (Raise (DoesNotExist "Repository"), db)).
Proof.
  split; [|split].
  - intros Himp. unfold sync, bindT, objects_get. by rewrite Himp.
  - intros importer Himp Hfeed. eexists.
    unfold sync, bindT, objects_get. by rewrite Himp, Hfeed.
  - intros importer Himp Hfeed Hrepo.
    unfold sync, bindT at 1, objects_get at 1. rewrite Himp, Hfeed.
    cbn [negb]. unfold bindT at 1, objects_get at 1. by rewrite Hrepo.
Qed.

(** X15.  Whatever its outcome, [publish] leaves the importers, the
    publishers, the repositories and the versions as they are: it creates no
    version and consumes no version number. *)
Theorem publish_leaves_repositories (env : Collaborators)
    (publisher_pk repository_pk : Pk) (db : DB) :
  let db' := (publish env publisher_pk repository_pk db).2 in
  importers db' = importers db ∧
  publishers db' = publishers db ∧
  repositories db' = repositories db ∧
  versions db' = versions db.
Proof.
  intros db'. subst db'.
  destruct (publish_early env publisher_pk repository_pk db)
    as (Hno_publisher & Hno_repository & Hno_version).
  destruct (publishers db !! publisher_pk) as [publisher|] eqn:Hpub.
  2: { by rewrite Hno_publisher. }
  destruct (repositories db !! repository_pk) as [repository|] eqn:Hrepo.
  2: { by rewrite (Hno_repository publisher). }
  destruct (map_fold (newer repository_pk) None (versions db))
    as [version|] eqn:Hlatest.
  2: { by rewrite (Hno_version publisher repository). }
  rewrite (publish_by_body env publisher_pk repository_pk publisher
             repository version db Hpub Hrepo Hlatest).
  pose proof (publish_body_outcome env (new_pk (publications db)) version
                (created_by_publish publisher_pk version.1 db)) as Hbody.
  destruct (publish_body env _ version _) as [[[]|e] db2]; cbn [snd].
  - destruct Hbody as (dbp & file & (H1 & H2 & H3 & H4 & _) & ->).
    by simpl.
  - destruct Hbody as (H1 & H2 & H3 & H4 & _). by simpl.
Qed.

(** X16.  [publish] raises [DoesNotExist] before it writes anything when
    the publisher is missing, when the repository is missing, and when the
    repository has no complete version: unlike [sync] it does not go on
    without a version. *)
Theorem publish_lookups (env : Collaborators) (publisher_pk repository_pk : Pk)
    (db : DB) :
  (publishers db !! publisher_pk = None →
   publish env publisher_pk repository_pk db
   = (Raise (DoesNotExist "FilePublisher"), db)) ∧
  (∀ publisher,
     publishers db !! publisher_pk = Some publisher →
     repositories db !! repository_pk = None →
     publish env publisher_pk repository_pk db
     = (Raise (DoesNotExist "Repository"), db)) ∧
  (∀ publisher repository,
     publishers db !! publisher_pk = Some publisher →
     repositories db !! repository_pk = Some repository →
     (∀ pk v, versions db !! pk = Some v →
              version_repository v = repository_pk → complete v = false) →
     publish env publisher_pk repository_pk db
     = (Raise (DoesNotExist "RepositoryVersion"), db)).
Proof.
  destruct (publish_early env publisher_pk repository_pk db)
    as (Hno_publisher & Hno_repository & Hno_version).
  split; [exact Hno_publisher|]. split; [exact Hno_repository|].
  intros publisher repository Hpub Hrepo Hnone.
  apply (Hno_version publisher repository Hpub Hrepo).
  pose proof (latest_complete_spec repository_pk (versions db)) as Hspec.
  destruct (map_fold (newer repository_pk) None (versions db))
    as [[pk v]|]; [|reflexivity].
  destruct Hspec as (Hv & Hrep & Hcomplete & _).
  by rewrite (Hnone pk v Hv Hrep) in Hcomplete.
Qed.

(** X17.  Whatever its outcome, [sync] leaves the importers, the
    publishers, the publications and what they published as they are. *)
Theorem sync_leaves_publications (env : Collaborators) (importer_pk : Pk)
    (db : DB) :
  let db' := (sync env importer_pk db).2 in
  importers db' = importers db ∧
  publishers db' = publishers db ∧
  publications db' = publications db ∧
  published_artifacts db' = published_artifacts db ∧
  published_metadata db' = published_metadata db.
Proof.
  intros db'. subst db'.
  destruct (sync_early env importer_pk db)
    as (Hno_importer & Hno_feed & Hno_repository).
  destruct (importers db !! importer_pk) as [importer|] eqn:Himp.
  2: { by rewrite Hno_importer. }
  destruct (truthy (feed_url importer)) eqn:Hfeed.
  2: { destruct (Hno_feed importer eq_refl Hfeed) as [msg ->]. by simpl. }
  destruct (repositories db !! importer_repository importer)
    as [repository|] eqn:Hrepo.
  2: { by rewrite (Hno_repository importer). }
  rewrite (sync_by_run env importer_pk importer repository db Himp Hfeed
             Hrepo).
  by destruct (run env _) as [done|e].
Qed.

Lemma for_each_Forall2 {A B C} (R : B → C → Prop) (h : A → list C)
    (n : DB → nat) (f : A → Task (list B)) (l : list A) :
  (∀ x db ys db',
     f x db = (Ok ys, db') →
     Forall2 R ys (h x) ∧ n db' = (n db + length (h x))%nat) →
  ∀ db ys db',
    for_each f l db = (Ok ys, db') →
    Forall2 R ys (flat_map h l)
    ∧ n db' = (n db + length (flat_map h l))%nat.
Proof.
  intros Hstep. induction l as [|x l IH]; intros db ys db'.
  - cbn [for_each ret flat_map]. unfold ret. intros [= <- <-].
    split; [constructor|simpl; lia].
  - cbn [for_each flat_map]. unfold bindT at 1.
    destruct (f x db) as [[ys1|e] db1] eqn:Hx; [|discriminate].
    unfold bindT at 1.
    destruct (for_each f l db1) as [[zs|e] db2] eqn:Hl; [|discriminate].
    unfold ret. intros [= <- <-].
    destruct (Hstep x db ys1 db1 Hx) as [Hys Hn1].
    destruct (IH db1 zs db2 Hl) as [Hzs Hn2].
    split; [by apply Forall2_app|]. rewrite length_app. lia.
Qed.

Lemma flat_map_singleton {A} (l : list A) : flat_map (λ x, [x]) l = l.
Proof. induction l as [|x l IH]; [reflexivity|]. simpl. by rewrite IH. Qed.

(** X18.  When [_publish] runs to its end it has yielded one entry per
    content artifact of the version, in the order of the content: its path
    is the artifact's relative path, its digest and size are those of the
    artifact, or of the remote artifact when the file has not been
    downloaded; and it has saved one published artifact per entry. *)
Theorem publish_yields_entry_per_artifact (env : Collaborators)
    (publication repository_version repository : Pk) (db db' : DB)
    (entries : list Entry) :
  _publish env publication repository_version repository db
    = (Ok entries, db') →
  Forall2 (entry_of env repository) entries
          (content_artifacts env repository_version) ∧
  size (published_artifacts db')
  = (size (published_artifacts db)
     + length (content_artifacts env repository_version))%nat.
Proof.
  unfold _publish, content_artifacts.
  apply (for_each_Forall2 (entry_of env repository)
           (contentartifact_set env) (λ d, size (published_artifacts d))).
  intros content1 db1 ys db2.
  rewrite <- (flat_map_singleton (contentartifact_set env content1)) at 2 3.
  apply (for_each_Forall2 (entry_of env repository) (λ ca, [ca])
           (λ d, size (published_artifacts d))).
  clear. intros content_artifact db ys db'.
  unfold bindT, _find_artifact, save_new, ret, lift, entry_of.
  destruct (ca_artifact content_artifact) as [artifact|] eqn:Hartifact.
  - intros [= <- <-]. simpl. split.
    + constructor; [|constructor]. simpl. rewrite Hartifact. auto.
    + rewrite map_size_insert_None by apply new_pk_fresh. lia.
  - destruct (remote_artifact_get env _ _) as [remote|e] eqn:Hremote;
      [|discriminate].
    intros [= <- <-]. simpl. split.
    + constructor; [|constructor]. simpl. rewrite Hartifact.
      split; [reflexivity|]. by exists remote.
    + rewrite map_size_insert_None by apply new_pk_fresh. lia.
Qed.

Lemma publish_yields_entry_per_artifact_witness :
  Forall2 (entry_of fixture_env_ok 1)
          [mkEntry "a.txt" "d1" 10; mkEntry "old.txt" "dR" 7]
          (content_artifacts fixture_env_ok 1) ∧
  size (published_artifacts
          (_publish fixture_env_ok 1 1 1 fixture_publishing).2)
  = (size (published_artifacts fixture_publishing)
     + length (content_artifacts fixture_env_ok 1))%nat.
Proof.
  apply (publish_yields_entry_per_artifact fixture_env_ok 1 1 1
           fixture_publishing).
  by vm_compute.
Defined.

(** X19.  [_find_delta] reads only the manifest and the inventory, which it
    leaves alone: run again with the same [mirror] on the synchronizer it
    returned, it returns that synchronizer unchanged. *)
Theorem find_delta_twice (mirror : bool) (self self' : Synchronizer) :
  _find_delta mirror self = Ok self' →
  _manifest self' = _manifest self ∧
  _inventory_keys self' = _inventory_keys self ∧
  _find_delta mirror self' = Ok self'.
Proof.
  unfold _find_delta.
  destruct (_manifest self) as [manifest|] eqn:Hm; [|discriminate].
  intros [= <-]. simpl. split; [reflexivity|].
  split; [reflexivity|]. by destruct mirror.
Qed.

Lemma find_delta_twice_witness :
  _manifest fixture_delta = _manifest fixture_synchronizer ∧
  _inventory_keys fixture_delta = _inventory_keys fixture_synchronizer ∧
  _find_delta true fixture_delta = Ok fixture_delta.
Proof.
  apply (find_delta_twice true fixture_synchronizer fixture_delta).
  by vm_compute.
Defined.
